(** * Relax pass registration, IR builder wrappers and pass pipeline

    A shallow embedding of
      - [python/tvm/relax/transform/transform.py]  (pass registration),
      - [python/tvm/script/ir_builder/relax/ir.py] (builder entry points),
    together with models, written from the specification, of the two
    components these wrappers talk to: the frame stack of the builder and
    the pass pipeline runner. *)

From Stdlib Require Import List String ZArith Bool Arith Lia Permutation Relations.
Import ListNotations.
Open Scope string_scope.

Set Implicit Arguments.

(* ===================================================================== *)
(** ** Python-level results                                               *)
(* ===================================================================== *)

Module Py.

(** Exceptions raised by the Python wrappers, and the error taxonomy of
    the builder and of the pipeline. *)
Inductive exn : Type :=
| ValueError (msg : string)
| TypeError (msg : string)
| AttributeError (attr : string)
| AssertionError (msg : string)
| FrameStackError
| UndefinedOutputError
| NotInDataflowBlockError
| ShapeMismatchError
| TypeConflictError
| MissingReturnError
| IncompleteBranchError
| PassDependencyError
| PassCycleError
| PassExecutionError (unit_name : string).

Inductive result (A : Type) : Type :=
| Ok (a : A)
| Raise (e : exn).
Arguments Ok {A} a.
Arguments Raise {A} e.

Definition bind {A B} (r : result A) (k : A -> result B) : result B :=
  match r with
  | Ok a => k a
  | Raise e => Raise e
  end.

(** Array payload shared by [numpy.ndarray] and [tvm.runtime.NDArray]. *)
Record TensorData : Type := mkTensorData
  { t_shape : list Z; t_dtype : string; t_values : list Z }.

(** The Python values that reach the wrappers as arguments. *)
Inductive value : Type :=
| PyNone
| PyBool (b : bool)
| PyInt (z : Z)
| PyStr (s : string)
| NumpyArray (d : TensorData)
| NDArray (d : TensorData).

(** [type(v)] as it is printed inside an f-string. *)
Definition type_repr (v : value) : string :=
  match v with
  | PyNone => "<class 'NoneType'>"
  | PyBool _ => "<class 'bool'>"
  | PyInt _ => "<class 'int'>"
  | PyStr _ => "<class 'str'>"
  | NumpyArray _ => "<class 'numpy.ndarray'>"
  | NDArray _ => "<class 'tvm.runtime.ndarray.NDArray'>"
  end.

(** A [dict] with [str] keys, kept in insertion order. *)
Definition dict (V : Type) : Type := list (string * V).

Fixpoint dict_set {V} (d : dict V) (k : string) (v : V) : dict V :=
  match d with
  | [] => [(k, v)]
  | (k', v') :: d' =>
      if String.eqb k' k then (k', v) :: d' else (k', v') :: dict_set d' k v
  end.

Definition keys {V} (d : dict V) : list string := map fst d.
Definition values {V} (d : dict V) : list V := map snd d.

(** The call returned rather than raised. *)
Definition is_ok {A} (r : result A) : bool :=
  match r with Ok _ => true | Raise _ => false end.

(** [l[i] = v] for an index in range (the only use made of it here). *)
Fixpoint list_set {A} (l : list A) (i : nat) (v : A) : list A :=
  match l, i with
  | [], _ => []
  | _ :: l', O => v :: l'
  | x :: l', S i' => x :: list_set l' i' v
  end.

(** [enumerate(l)]: the items with their positions. *)
Definition enumerate {A} (l : list A) : list (nat * A) :=
  combine (seq 0 (List.length l)) l.

End Py.

Import Py.

Declare Scope py_scope.
Delimit Scope py_scope with py.
Notation "x <- c ;; k" := (Py.bind c (fun x => k))
  (at level 61, c at next level, right associativity) : py_scope.
Notation "' pat <- c ;; k" := (Py.bind c (fun x => match x with pat => k end))
  (at level 61, pat pattern, c at next level, right associativity) : py_scope.
Open Scope py_scope.

(* ===================================================================== *)
(** ** transform.py                                                       *)
(* ===================================================================== *)

Module Transform.

(** [tvm.transform.PassInfo(opt_level, name, required, traceable)]. *)
Record PassInfo : Type := mkPassInfo
  { opt_level : Z;
    name : string;
    required : list string;
    traceable : bool }.

(** The object type a pass handle is registered under. *)
Inductive PassKind : Type :=
| FunctionPass        (* "relax.FunctionPass" *)
| DataflowBlockPass.  (* "relax.DataflowBlockPass" *)

Section Passes.

(** The IR is opaque to the registration layer: a unit is a function
    or a dataflow block, whichever the pass kind works on. *)
Variables (IRUnit IRModule PassContext : Type).

(** Body of a Python callable [(unit, mod, ctx) -> unit]. *)
Definition PyCallable : Type :=
  IRUnit -> IRModule -> PassContext -> result IRUnit.

(** A [types.FunctionType] object; a lambda is one whose [__name__]
    is ["<lambda>"]. *)
Record PyFunction : Type := mkPyFunction
  { fn_name : string;
    fn_call : PyCallable }.

(** An instance of a user class: its bound methods by attribute name. *)
Record PyInstance : Type := mkPyInstance
  { inst_method : string -> option PyCallable }.

(** A user class: [__name__], the truth value of the class object ([True]
    unless its metaclass defines [__bool__] or [__len__] otherwise) and
    its constructor. *)
Record PyClass : Type := mkPyClass
  { cls_name : string;
    cls_truthy : bool;
    cls_init : list value -> result PyInstance }.

(** What can be handed to the decorators as [pass_func] / [pass_arg]. *)
Inductive PassArg : Type :=
| ArgNone
| ArgFunction (f : PyFunction)
| ArgClass (c : PyClass)
| ArgObject (truthy : bool) (obj_name : option string).

(** [bool(pass_func)]. *)
Definition arg_truthy (a : PassArg) : bool :=
  match a with
  | ArgNone => false
  | ArgFunction _ => true
  | ArgClass c => cls_truthy c
  | ArgObject t _ => t
  end.

(** [pass_arg.__name__]. *)
Definition arg_name (a : PassArg) : result string :=
  match a with
  | ArgNone => Raise (AttributeError "__name__")
  | ArgFunction f => Ok (fn_name f)
  | ArgClass c => Ok (cls_name c)
  | ArgObject _ (Some n) => Ok n
  | ArgObject _ None => Raise (AttributeError "__name__")
  end.

(** The [required] argument: [None], a list, a tuple, or any other
    object (of which only the truth value matters). *)
Inductive Required : Type :=
| ReqNone
| ReqList (l : list string)
| ReqTuple (l : list string)
| ReqOther (truthy : bool).

Definition req_truthy (r : Required) : bool :=
  match r with
  | ReqNone => false
  | ReqList l | ReqTuple l => negb (Nat.eqb (List.length l) 0)
  | ReqOther t => t
  end.

(** [required = required if required else []], followed by the
    [isinstance(required, (list, tuple))] test. *)
Definition normalize_required (r : Required) : result (list string) :=
  let r' := if req_truthy r then r else ReqList [] in
  match r' with
  | ReqList l | ReqTuple l => Ok l
  | _ => Raise (TypeError "Required is expected to be the type of list/tuple.")
  end.

(** A pass object: the handle made by the native constructor, and the
    wrapped instance [_inst] when it comes from a decorated class. *)
Record Pass : Type := mkPass
  { pass_kind : PassKind;
    pass_func : PyCallable;
    info : PassInfo;
    _inst : option PyInstance }.

(** [_ffi_api.MakeFunctionPass] and [_ffi_api.MakeDataflowBlockPass]. *)
Definition MakeFunctionPass (f : PyCallable) (i : PassInfo) : Pass :=
  mkPass FunctionPass f i None.
Definition MakeDataflowBlockPass (f : PyCallable) (i : PassInfo) : Pass :=
  mkPass DataflowBlockPass f i None.

(** The class returned when a class is decorated
    ([PyFunctionPass] / [PyDataflowBlockPass]). *)
Record PyPassClass : Type := mkPyPassClass
  { wrapper_base : PassKind;
    wrapper_name : string;
    wrapper_info : PassInfo;
    wrapper_new : list value -> result Pass }.

(** [inst.<meth>(func, mod, ctx)]. *)
Definition call_method (inst : PyInstance) (meth : string) : PyCallable :=
  fun u m c =>
    match inst_method inst meth with
    | Some f => f u m c
    | None => Raise (AttributeError meth)
    end.

Definition _wrap_class_function_pass (pass_cls : PyClass) (pass_info : PassInfo)
  : PyPassClass :=
  let init (args : list value) : result Pass :=
    inst <- cls_init pass_cls args ;;
    let _pass_func := call_method inst "transform_function" in
    let self := MakeFunctionPass _pass_func pass_info in
    Ok (mkPass (pass_kind self) (pass_func self) (info self) (Some inst)) in
  mkPyPassClass FunctionPass (cls_name pass_cls) pass_info init.

Definition _wrap_class_dataflowblock_pass (pass_cls : PyClass) (pass_info : PassInfo)
  : PyPassClass :=
  let init (args : list value) : result Pass :=
    inst <- cls_init pass_cls args ;;
    let _pass_func := call_method inst "transform_dataflowblock" in
    let self := MakeDataflowBlockPass _pass_func pass_info in
    Ok (mkPass (pass_kind self) (pass_func self) (info self) (Some inst)) in
  mkPyPassClass DataflowBlockPass (cls_name pass_cls) pass_info init.

(** What [create_*_pass] returns. *)
Inductive Created : Type :=
| CreatedPass (p : Pass)
| CreatedClass (c : PyPassClass).

(** The native constructor [tvm.transform.PassInfo(opt_level, name,
    required, traceable)].  It keeps [opt_level] in a C [int], so it does
    not take every Python integer: what it returns, or raises, is left
    to the native side. *)
Variable ffi_PassInfo : Z -> string -> list string -> bool -> result PassInfo.

(** What the decorator entry points return: the decorated result, or
    the decorator itself when [pass_func] is not given. *)
Inductive Decorated : Type :=
| Direct (c : Created)
| Decorator (create : PassArg -> result Created).

(** [name if name else ...]: [None] and [""] are both falsy. *)
Definition name_truthy (n : option string) : bool :=
  match n with
  | Some s => negb (String.eqb s "")
  | None => false
  end.

(** [fname = name if name else pass_arg.__name__]. *)
Definition pick_name (n : option string) (a : PassArg) : result string :=
  match n with
  | Some s => if name_truthy n then Ok s else arg_name a
  | None => arg_name a
  end.

(** The closure [create_function_pass] of [function_pass], with the
    variables it captures as leading arguments. *)
Definition create_function_pass
    (opt : Z) (nm : option string) (req : list string) (tr : bool)
    (pass_arg : PassArg) : result Created :=
  fname <- pick_name nm pass_arg ;;
  info <- ffi_PassInfo opt fname req tr ;;
  match pass_arg with
  | ArgClass c => Ok (CreatedClass (_wrap_class_function_pass c info))
  | ArgFunction f => Ok (CreatedPass (MakeFunctionPass (fn_call f) info))
  | _ => Raise (TypeError "pass_func must be a callable for Function pass")
  end.

Definition function_pass
    (pass_func : PassArg) (opt_level : option Z) (name : option string)
    (required : Required) (traceable : bool) : result Decorated :=
  match opt_level with
  | None => Raise (ValueError "Please provide opt_level for the function pass.")
  | Some opt =>
      req <- normalize_required required ;;
      if arg_truthy pass_func
      then c <- create_function_pass opt name req traceable pass_func ;;
           Ok (Direct c)
      else Ok (Decorator (create_function_pass opt name req traceable))
  end.

Definition create_dataflowblock_pass
    (opt : Z) (nm : option string) (req : list string) (tr : bool)
    (pass_arg : PassArg) : result Created :=
  fname <- pick_name nm pass_arg ;;
  info <- ffi_PassInfo opt fname req tr ;;
  match pass_arg with
  | ArgClass c => Ok (CreatedClass (_wrap_class_dataflowblock_pass c info))
  | ArgFunction f => Ok (CreatedPass (MakeDataflowBlockPass (fn_call f) info))
  | _ => Raise (TypeError "pass_func must be a callable for DataflowBlock pass")
  end.

Definition dataflowblock_pass
    (pass_func : PassArg) (opt_level : option Z) (name : option string)
    (required : Required) (traceable : bool) : result Decorated :=
  match opt_level with
  | None => Raise (ValueError "Please provide opt_level for the dataflowblock pass.")
  | Some opt =>
      req <- normalize_required required ;;
      if arg_truthy pass_func
      then c <- create_dataflowblock_pass opt name req traceable pass_func ;;
           Ok (Direct c)
      else Ok (Decorator (create_dataflowblock_pass opt name req traceable))
  end.

(** The [PassInfo] recorded by a registration. *)
Definition recorded_info (c : Created) : PassInfo :=
  match c with
  | CreatedPass p => info p
  | CreatedClass w => wrapper_info w
  end.

(** *** BindParams *)

(** The native conversion behind [tvm.nd.array]: the payload of the
    NDArray it makes of a numpy array, or the error it raises for an
    array TVM cannot represent (a dtype it does not know). *)
Variable ffi_nd_array : TensorData -> result TensorData.

(** [tvm.nd.array(v)] on a numpy array. *)
Definition tvm_nd_array (v : value) : result value :=
  match v with
  | NumpyArray d => d' <- ffi_nd_array d ;; Ok (NDArray d')
  | _ => Ok v
  end.

Definition isinstance_np_ndarray (v : value) : bool :=
  match v with NumpyArray _ => true | _ => false end.

Definition isinstance_NDArray (v : value) : bool :=
  match v with NDArray _ => true | _ => false end.

(** One iteration of the loop over [params.items()]. *)
Definition bind_params_step (tvm_params : dict value) (kv : string * value)
  : result (dict value) :=
  let '(k, v) := kv in
  v <- (if isinstance_np_ndarray v then tvm_nd_array v else Ok v) ;;
  if isinstance_NDArray v
  then Ok (dict_set tvm_params k v)
  else Raise (AssertionError
                ("param values are expected to be TVM.NDArray or numpy.ndarray, but got "
                   ++ type_repr v)).

Fixpoint bind_params_loop (tvm_params : dict value) (items : list (string * value))
  : result (dict value) :=
  match items with
  | [] => Ok tvm_params
  | kv :: rest =>
      d <- bind_params_step tvm_params kv ;;
      bind_params_loop d rest
  end.

(** The native [_ffi_api.BindParams]. *)
Variable ffi_BindParams : string -> dict value -> result Pass.

Definition BindParams (func_name : string) (params : dict value) : result Pass :=
  tvm_params <- bind_params_loop [] params ;;
  ffi_BindParams func_name tvm_params.

(** *** Reference notions used to state the registration properties *)

(** A [required] argument of the documented type [Optional[List[str]]]
    (a tuple is accepted as well). *)
Definition well_typed_required (r : Required) : bool :=
  match r with
  | ReqNone | ReqList _ | ReqTuple _ => true
  | ReqOther _ => false
  end.

(** The list of names a well-typed [required] argument stands for. *)
Definition required_names (r : Required) : list string :=
  match r with
  | ReqList l | ReqTuple l => l
  | _ => []
  end.

(** The name a registration is expected to record: the given one unless
    it is omitted or empty, in which case [__name__]. *)
Definition expected_name (n : option string) (dunder_name : string) : string :=
  match n with
  | None => dunder_name
  | Some s => if String.eqb s "" then dunder_name else s
  end.

(** [__name__] of what can be decorated: a function or a class. *)
Definition decorated_name (a : PassArg) : option string :=
  match a with
  | ArgFunction f => Some (fn_name f)
  | ArgClass c => Some (cls_name c)
  | _ => None
  end.

(** A parameter value [BindParams] accepts. *)
Definition is_tensor (v : value) : bool :=
  isinstance_np_ndarray v || isinstance_NDArray v.

(** [opt] is an [opt_level] the native [PassInfo] constructor takes (one
    that fits its C int): with it the constructor returns the record of
    its four arguments. *)
Definition native_accepts (opt : Z) : Prop :=
  forall n req tr, ffi_PassInfo opt n req tr = Ok (mkPassInfo opt n req tr).

(** [v'] is what the loop of [BindParams] stores for [v]: an NDArray as
    it is, a numpy array as the NDArray [tvm.nd.array] made of it. *)
Definition stored_as (v v' : value) : Prop :=
  match v with
  | NDArray d => v' = NDArray d
  | NumpyArray d => exists d', ffi_nd_array d = Ok d' /\ v' = NDArray d'
  | _ => False
  end.

(** [tvm.nd.array] takes the numpy array [v] (anything else is not
    handed to it). *)
Definition convertible (v : value) : Prop :=
  match v with
  | NumpyArray d => exists d', ffi_nd_array d = Ok d'
  | _ => True
  end.

(** A [required] argument that passes the [isinstance] test: a list, a
    tuple, or anything falsy. *)
Definition acceptable_required (r : Required) : bool :=
  negb (req_truthy r) || well_typed_required r.

(** An argument [create_*_pass] can turn into a pass or a pass class. *)
Definition decoratable (a : PassArg) : bool :=
  match a with
  | ArgFunction _ | ArgClass _ => true
  | _ => false
  end.

(** [hasattr(pass_arg, "__name__")]. *)
Definition has_dunder_name (a : PassArg) : bool :=
  is_ok (arg_name a).

End Passes.

End Transform.

(* ===================================================================== *)
(** ** The frame stack of the builder                                     *)
(* ===================================================================== *)

Module Builder.

(** *** IR values *)

Inductive PrimExpr : Type :=
| TirVar (dtype : string) (n : string)
| IntImm (z : Z).

Definition ShapeExpr : Type := list PrimExpr.

Inductive Ty : Type :=
| DynTensorType (ndim : Z) (dtype : option string)
| ShapeType
| ObjectType.

Record Var : Type := mkVar
  { var_name : string;
    var_type : option Ty;
    var_shape : option ShapeExpr }.

Inductive Expr : Type :=
| EVar (v : Var)
| EConst (d : TensorData)
| EShapeExpr (s : ShapeExpr)
| ECall (op : string) (lhs rhs : Expr).

(** A binding: the pair (var, value) and the dataflow flag. *)
Record Binding : Type := mkBinding
  { b_var : Var;
    b_value : Expr;
    is_dataflow_var : bool }.

Record Block : Type := mkBlock
  { blk_is_dataflow : bool;
    blk_bindings : list Binding;
    blk_outputs : list Var }.

Record Function : Type := mkFunction
  { fun_args : list Var;
    fun_attrs : dict string;
    fun_ret_type : option Ty;
    fun_blocks : list Block;
    fun_ret : Expr }.

(** The immutable node a frame finalizes into. *)
Inductive IRNode : Type :=
| NModule (functions : list Function)
| NFunction (f : Function)
| NBlock (b : Block)
| NBranch (bindings : list Binding)
| NIf (cond : Expr) (then_ else_ : list Binding).

(** *** Frames *)

Inductive FrameKind : Type :=
| KModule
| KFunction
| KBlock (is_dataflow : bool)
| KIf
| KThen
| KElse.

Record Frame : Type := mkFrame
  { kind : FrameKind;
    pending_bindings : list Binding;
    declared_vars : list string;
    attrs : dict string;
    output_vars : list Var;
    (* function frames *)
    args : list Var;
    ret_type : option Ty;
    ret_value : option Expr;
    blocks : list Block;
    (* if frames *)
    condition : option Expr;
    then_result : option (list Binding);
    else_result : option (list Binding);
    (* module frames *)
    functions : list Function }.

Definition FrameStack : Type := list Frame.

Definition depth (s : FrameStack) : nat := List.length s.

Definition is_block (k : FrameKind) : bool :=
  match k with KBlock _ => true | _ => false end.

Definition is_dataflow_block (k : FrameKind) : bool :=
  match k with KBlock true => true | _ => false end.

Definition is_function (k : FrameKind) : bool :=
  match k with KFunction => true | _ => false end.

Definition var_eqb (a b : Var) : bool := String.eqb (var_name a) (var_name b).

Definition bound_in (bs : list Binding) (v : Var) : bool :=
  existsb (fun b => var_eqb (b_var b) v) bs.


Definition new_frame (k : FrameKind) : Frame :=
  mkFrame k [] [] [] [] [] None None [] None None None [].

Definition set_bindings (f : Frame) (bs : list Binding) : Frame :=
  mkFrame (kind f) bs (declared_vars f) (attrs f) (output_vars f) (args f)
    (ret_type f) (ret_value f) (blocks f) (condition f) (then_result f)
    (else_result f) (functions f).

Definition set_declared (f : Frame) (names : list string) : Frame :=
  mkFrame (kind f) (pending_bindings f) names (attrs f) (output_vars f) (args f)
    (ret_type f) (ret_value f) (blocks f) (condition f) (then_result f)
    (else_result f) (functions f).

Definition set_outputs (f : Frame) (vs : list Var) : Frame :=
  mkFrame (kind f) (pending_bindings f) (declared_vars f) (attrs f) vs (args f)
    (ret_type f) (ret_value f) (blocks f) (condition f) (then_result f)
    (else_result f) (functions f).

Definition set_args (f : Frame) (vs : list Var) : Frame :=
  mkFrame (kind f) (pending_bindings f) (declared_vars f) (attrs f) (output_vars f) vs
    (ret_type f) (ret_value f) (blocks f) (condition f) (then_result f)
    (else_result f) (functions f).

Definition set_blocks (f : Frame) (bs : list Block) : Frame :=
  mkFrame (kind f) (pending_bindings f) (declared_vars f) (attrs f) (output_vars f)
    (args f) (ret_type f) (ret_value f) bs (condition f) (then_result f)
    (else_result f) (functions f).

Definition set_then (f : Frame) (r : list Binding) : Frame :=
  mkFrame (kind f) (pending_bindings f) (declared_vars f) (attrs f) (output_vars f)
    (args f) (ret_type f) (ret_value f) (blocks f) (condition f) (Some r)
    (else_result f) (functions f).

Definition set_else (f : Frame) (r : list Binding) : Frame :=
  mkFrame (kind f) (pending_bindings f) (declared_vars f) (attrs f) (output_vars f)
    (args f) (ret_type f) (ret_value f) (blocks f) (condition f) (then_result f)
    (Some r) (functions f).

Definition set_functions (f : Frame) (fs : list Function) : Frame :=
  mkFrame (kind f) (pending_bindings f) (declared_vars f) (attrs f) (output_vars f)
    (args f) (ret_type f) (ret_value f) (blocks f) (condition f) (then_result f)
    (else_result f) fs.

(** Modelled from the spec: the frame stack ([enter], [exit], [current])
    and the finalize routines of section 4.1; the frame classes and the
    native builder behind [_ffi_api] are not among the sources. *)

(** A dataflow block may only be entered on top of a function frame or
    of a plain block. *)
Definition legal_enter (k : FrameKind) (s : FrameStack) : bool :=
  match k with
  | KBlock true =>
      match s with
      | top :: _ =>
          match kind top with
          | KFunction | KBlock false => true
          | _ => false
          end
      | [] => false
      end
  | _ => true
  end.

Definition enter (f : Frame) (s : FrameStack) : result FrameStack :=
  if legal_enter (kind f) s then Ok (f :: s) else Raise FrameStackError.

Definition current (s : FrameStack) : result Frame :=
  match s with
  | top :: _ => Ok top
  | [] => Raise FrameStackError
  end.

(** Kind-specific finalize routines. *)
Definition finalize (f : Frame) : result IRNode :=
  match kind f with
  | KModule => Ok (NModule (functions f))
  | KFunction =>
      match ret_value f with
      | Some r => Ok (NFunction (mkFunction (args f) (attrs f) (ret_type f) (blocks f) r))
      | None => Raise MissingReturnError
      end
  | KBlock true =>
      if forallb (bound_in (pending_bindings f)) (output_vars f)
      then Ok (NBlock (mkBlock true (pending_bindings f) (output_vars f)))
      else Raise UndefinedOutputError
  | KBlock false => Ok (NBlock (mkBlock false (pending_bindings f) []))
  | KIf =>
      match condition f, then_result f, else_result f with
      | Some c, Some t, Some e => Ok (NIf c t e)
      | _, _, _ => Raise IncompleteBranchError
      end
  | KThen | KElse => Ok (NBranch (pending_bindings f))
  end.

(** The parent's accumulation logic: what the frame now exposed does with
    the node its child finalized into. *)
Definition accumulate (child : FrameKind) (n : IRNode) (parent : Frame) : Frame :=
  match n, child with
  | NBlock b, _ => set_blocks parent (blocks parent ++ [b])
  | NFunction fn, _ => set_functions parent (functions parent ++ [fn])
  | NBranch bs, KThen => set_then parent bs
  | NBranch bs, KElse => set_else parent bs
  | _, _ => parent
  end.

Definition exit (s : FrameStack) : result (IRNode * FrameStack) :=
  match s with
  | [] => Raise FrameStackError
  | top :: rest =>
      n <- finalize top ;;
      match rest with
      | [] => Ok (n, [])
      | parent :: rest' => Ok (n, accumulate (kind top) n parent :: rest')
      end
  end.

(** *** The native builder operations behind ir.py *)

Section Emitter.

(** The type and shape system and the name supply are external. *)
Variable infer_type : Expr -> option Ty.
Variable infer_shape : Expr -> option ShapeExpr.
Variable shape_matches : option ShapeExpr -> list PrimExpr -> bool.
Variable fresh_name : list string -> bool -> string.

(** Names declared in the enclosing function frame. *)
Fixpoint enclosing_declared (s : FrameStack) : list string :=
  match s with
  | [] => []
  | f :: rest => if is_function (kind f) then declared_vars f else enclosing_declared rest
  end.

Fixpoint declare (n : string) (s : FrameStack) : FrameStack :=
  match s with
  | [] => []
  | f :: rest =>
      if is_function (kind f)
      then set_declared f (declared_vars f ++ [n]) :: rest
      else f :: declare n rest
  end.

(** Modelled from the spec: [emit] of section 4.2, the behaviour of the
    native [_ffi_api.Emit]. *)
Definition _ffi_api_Emit (s : FrameStack) (value : Expr) (is_df : bool)
  : result (Var * FrameStack) :=
  top <- current s ;;
  if is_block (kind top)
  then
    let v := mkVar (fresh_name (enclosing_declared s) is_df)
                   (infer_type value) (infer_shape value) in
    let top' := set_bindings top (pending_bindings top ++ [mkBinding v value is_df]) in
    Ok (v, declare (var_name v) (top' :: tl s))
  else Raise FrameStackError.

(** Modelled from the spec: [emit_match_shape] of section 4.2, the
    behaviour of the native [_ffi_api.EmitMatchShape]. *)
Definition _ffi_api_EmitMatchShape (s : FrameStack) (value : Expr)
    (pattern : list PrimExpr) (emit_var is_df : bool)
  : result (option Var * FrameStack) :=
  if shape_matches (infer_shape value) pattern
  then
    if emit_var
    then '(v, s') <- _ffi_api_Emit s value is_df ;; Ok (Some v, s')
    else Ok (None, s)
  else Raise ShapeMismatchError.

(** Modelled from the spec: [output] of section 4.2, the behaviour of the
    native [_ffi_api.DataflowBlockOutput]. *)
Definition _ffi_api_DataflowBlockOutput (s : FrameStack) (vars : list Var)
  : result FrameStack :=
  top <- current s ;;
  if is_dataflow_block (kind top)
  then Ok (set_outputs top vars :: tl s)
  else Raise NotInDataflowBlockError.

(** Modelled from the spec: the native [_ffi_api.Arg], which records a
    parameter in the last function frame (the [args] of section 4.1). *)
Fixpoint add_arg (v : Var) (s : FrameStack) : option FrameStack :=
  match s with
  | [] => None
  | f :: rest =>
      if is_function (kind f)
      then Some (set_declared (set_args f (args f ++ [v]))
                              (declared_vars f ++ [var_name v]) :: rest)
      else option_map (cons f) (add_arg v rest)
  end.

Definition _ffi_api_Arg (s : FrameStack) (name : string) (type : Ty)
    (shape : option ShapeExpr) : result (Var * FrameStack) :=
  let v := mkVar name (Some type) shape in
  match add_arg v s with
  | Some s' => Ok (v, s')
  | None => Raise FrameStackError
  end.

(** *** ir.py *)

(** The temporary [TensorType] of the builder: a type together with a
    shape. *)
Record TensorType : Type := mkTensorType
  { tt_shape : option ShapeExpr;
    tt_type : Ty }.

(** The [type] argument of [arg]: a TVM type or a [TensorType]. *)
Inductive TypeArg : Type :=
| IsType (t : Ty)
| IsTensorType (t : TensorType).

Definition arg (s : FrameStack) (name : string) (type : TypeArg)
    (shape : option ShapeExpr) : result (Var * FrameStack) :=
  match type with
  | IsTensorType ty =>
      match shape with
      | Some _ => Raise (ValueError "Cannot specify the shape if we use TensorType")
      | None => _ffi_api_Arg s name (tt_type ty) (tt_shape ty)
      end
  | IsType t => _ffi_api_Arg s name t shape
  end.

Definition output (s : FrameStack) (vars : list Var)
  : result (list Var * FrameStack) :=
  s' <- _ffi_api_DataflowBlockOutput s vars ;;
  Ok (vars, s').

Definition emit (s : FrameStack) (value : Expr) (is_dataflow_var : bool)
  : result (Var * FrameStack) :=
  _ffi_api_Emit s value is_dataflow_var.

Definition emit_match_shape (s : FrameStack) (value : Expr)
    (pattern : list PrimExpr) (emit_var is_dataflow_var : bool)
  : result (option Var * FrameStack) :=
  _ffi_api_EmitMatchShape s value pattern emit_var is_dataflow_var.

(** The function frame a parameter is added to. *)
Fixpoint last_function_frame (s : FrameStack) : option Frame :=
  match s with
  | [] => None
  | f :: rest => if is_function (kind f) then Some f else last_function_frame rest
  end.

(** *** Sequences of builder operations *)

Inductive op : Type :=
| Enter (f : Frame)
| Exit
| Emit (value : Expr) (is_df : bool)
| EmitMatchShape (value : Expr) (pattern : list PrimExpr) (emit_var is_df : bool)
| Output (vars : list Var)
| Arg (name : string) (type : TypeArg) (shape : option ShapeExpr).

Definition step (o : op) (s : FrameStack) : result FrameStack :=
  match o with
  | Enter f => enter f s
  | Exit => '(_, s') <- exit s ;; Ok s'
  | Emit v d => '(_, s') <- emit s v d ;; Ok s'
  | EmitMatchShape v p e d => '(_, s') <- emit_match_shape s v p e d ;; Ok s'
  | Output vs => '(_, s') <- output s vs ;; Ok s'
  | Arg n t sh => '(_, s') <- arg s n t sh ;; Ok s'
  end.

Fixpoint run_ops (ops : list op) (s : FrameStack) : result FrameStack :=
  match ops with
  | [] => Ok s
  | o :: rest => s' <- step o s ;; run_ops rest s'
  end.

(** Enter/exit calls that pair up, with any number of emitter calls in
    between. *)
Inductive matched : list op -> Prop :=
| matched_nil : matched []
| matched_pair f body : matched body -> matched (Enter f :: body ++ [Exit])
| matched_app a b : matched a -> matched b -> matched (a ++ b)
| matched_emit v d : matched [Emit v d]
| matched_match_shape v p e d : matched [EmitMatchShape v p e d]
| matched_output vs : matched [Output vs]
| matched_arg n t sh : matched [Arg n t sh].

End Emitter.

End Builder.

(* ===================================================================== *)
(** ** ir.py: [tensor] and [call_packed]                                  *)
(* ===================================================================== *)

Module IRBuilder.

Import Builder.

(** *** tensor *)

(** An entry of the [shape] argument: a [PrimExpr] or a [str]. *)
Inductive Dim : Type :=
| DimExpr (e : PrimExpr)
| DimStr (s : string).

(** The [shape] argument: [None], a list, or another sequence (a tuple).
    The first component of what [tensor] returns below is this very
    argument as the caller sees it after the call. *)
Inductive ShapeArg : Type :=
| ShapeNone
| ShapeList (l : list Dim)
| ShapeTuple (l : list Dim).

(** [tvm.script.ir_builder.tir.var(dtype, name)].  A variable is
    represented by its dtype and its name; that every call makes a new
    variable object is not represented, and nothing below compares the
    variables of two calls. *)
Definition _tir_var (dtype name : string) : PrimExpr := TirVar dtype name.

(** The loop [for i, s in enumerate(shape): if isinstance(s, str):
    shape[i] = _tir_var("int64", s)].  Position [i] is read at round [i]
    and written in that round only, so the items are those of the list
    as it was on entry. *)
Fixpoint rewrite_shape (items : list (nat * Dim)) (shape : list Dim) : list Dim :=
  match items with
  | [] => shape
  | (i, s) :: rest =>
      match s with
      | DimStr n => rewrite_shape rest (list_set shape i (DimExpr (_tir_var "int64" n)))
      | DimExpr _ => rewrite_shape rest shape
      end
  end.

Section Tensor.

(** The native [_ffi_api.Tensor]. *)
Variable ffi_Tensor : option (list Dim) -> option string -> Z -> result TensorType.

Definition tensor (shape : ShapeArg) (dtype : option string) (ndim : Z)
  : ShapeArg * result TensorType :=
  match shape with
  | ShapeNone => (ShapeNone, ffi_Tensor None dtype ndim)
  | ShapeList l =>
      let l' := rewrite_shape (enumerate l) l in
      (ShapeList l', ffi_Tensor (Some l') dtype ndim)
  | ShapeTuple l =>
      (* [shape = list(shape)]: the loop works on a copy *)
      let l' := rewrite_shape (enumerate l) l in
      (ShapeTuple l, ffi_Tensor (Some l') dtype ndim)
  end.

End Tensor.

(** *** call_packed *)

(** [relax.ExternFunc(global_symbol)]. *)
Record ExternFunc : Type := mkExternFunc
  { global_symbol : string }.

Definition Attrs : Type := dict value.

(** An entry of [type_args]. *)
Inductive TypeElem : Type :=
| ElemTensorType (t : TensorType)
| ElemType (t : Ty)
| ElemOther (v : value).

(** [relax.Call(op, args, attrs, type_args)]. *)
Record Call : Type := mkCall
  { call_op : ExternFunc;
    call_args : list Expr;
    call_attrs : option Attrs;
    call_type_args : list TypeElem }.

(** The [type_args] argument: [None], one [TensorType] or [Type], a
    tuple or a list. *)
Inductive TypeArgs : Type :=
| TypeArgsNone
| TypeArgsTensorType (t : TensorType)
| TypeArgsType (t : Ty)
| TypeArgsTuple (l : list TypeElem)
| TypeArgsList (l : list TypeElem).

(** The list the loop of [call_packed] works on. *)
Definition as_list (type_args : TypeArgs) : list TypeElem :=
  match type_args with
  | TypeArgsNone => []
  | TypeArgsTensorType t => [ElemTensorType t]
  | TypeArgsType t => [ElemType t]
  | TypeArgsTuple l => l
  | TypeArgsList l => l
  end.

(** [type(arg)] in the error message is the type of the module-level
    function [arg]. *)
Definition type_args_error : exn :=
  TypeError ("call_packed `type_args` is expected to be list of TensorType/Type, "
               ++ "but got <class 'function'>").

(** The loop over [enumerate(type_args)]; it returns the list as the
    loop leaves it, also when it raises. *)
Fixpoint rewrite_type_args (items : list (nat * TypeElem)) (type_args : list TypeElem)
  : list TypeElem * result unit :=
  match items with
  | [] => (type_args, Ok tt)
  | (i, argument) :: rest =>
      match argument with
      | ElemTensorType t =>
          rewrite_type_args rest (list_set type_args i (ElemType (tt_type t)))
      | ElemType t =>
          rewrite_type_args rest (list_set type_args i (ElemType t))
      | ElemOther _ => (type_args, Raise type_args_error)
      end
  end.

(** [call_packed(func, *args, attrs, type_args)]; the first component is
    the [type_args] argument as the caller sees it after the call. *)
Definition call_packed (func : string) (args : list Expr) (attrs : option Attrs)
    (type_args : TypeArgs) : TypeArgs * result Call :=
  let op := mkExternFunc func in
  match type_args with
  | TypeArgsNone =>
      (type_args, Raise (ValueError "R.call_packed is required to have type_args"))
  | _ =>
      let l := as_list type_args in
      let '(l', r) := rewrite_type_args (enumerate l) l in
      let after :=
        match type_args with
        | TypeArgsList _ => TypeArgsList l'
        | _ => type_args
        end in
      (after, _ <- r ;; Ok (mkCall op args attrs l'))
  end.

(** *** Reference notions used to state the properties *)

(** What the loop of [tensor] makes of one entry. *)
Definition resolve_dim (d : Dim) : Dim :=
  match d with
  | DimStr n => DimExpr (TirVar "int64" n)
  | DimExpr e => DimExpr e
  end.

Definition is_expr (d : Dim) : bool :=
  match d with DimExpr _ => true | DimStr _ => false end.

(** What the loop of [call_packed] makes of one accepted entry. *)
Definition plain_type (e : TypeElem) : TypeElem :=
  match e with
  | ElemTensorType t => ElemType (tt_type t)
  | _ => e
  end.

Definition accepted (e : TypeElem) : bool :=
  match e with
  | ElemTensorType _ | ElemType _ => true
  | ElemOther _ => false
  end.

Definition is_type (e : TypeElem) : bool :=
  match e with ElemType _ => true | _ => false end.

End IRBuilder.

(* ===================================================================== *)
(** ** The pass pipeline runner                                           *)
(* ===================================================================== *)

Module Pipeline.

Import Transform.

Section Runner.

Variables (IRUnit IRModule PassContext : Type).

#[local] Abbreviation Pass := (Transform.Pass IRUnit IRModule PassContext).

(** The adapter of a pass (section 4.3): its [apply] on a whole module. *)
Variable apply : Pass -> IRModule -> result IRModule.

(** A pass together with its position in the input collection. *)
Definition Node : Type := (nat * Pass)%type.

Definition pass_name (p : Pass) : string := name (info p).
Definition pass_level (p : Pass) : Z := opt_level (info p).

Definition indexed (ps : list Pass) : list Node :=
  combine (seq 0 (List.length ps)) ps.

(** Modelled from the spec: the ordering algorithm and [run] of section
    4.4; the pipeline runner is not among the sources. *)

(** [n] names one of the provided passes. *)
Definition provided (ps : list Pass) (n : string) : bool :=
  existsb (fun q => String.eqb (pass_name q) n) ps.

(** Some [required] name is absent from the provided pass set. *)
Definition missing_dependency (ps : list Pass) : bool :=
  existsb (fun p => negb (forallb (provided ps) (required (info p)))) ps.

(** Some pass requires a name that no provided pass bears. *)
Definition missing_required (ps : list Pass) : Prop :=
  exists p n, In p ps /\ In n (required (info p))
              /\ forall q, In q ps -> pass_name q <> n.

(** Edge of the dependency graph: [p] requires [q] by name. *)
Definition depends_on (p q : Pass) : bool :=
  existsb (String.eqb (pass_name q)) (required (info p)).

(** [x] has no dependency left among the passes still to be placed. *)
Definition ready (remaining : list Node) (x : Node) : bool :=
  forallb (fun y => negb (depends_on (snd x) (snd y))) remaining.

(** Tie-break: ascending [opt_level], then input position. *)
Definition before (x y : Node) : bool :=
  (pass_level (snd x) <? pass_level (snd y))%Z
  || ((pass_level (snd x) =? pass_level (snd y))%Z && (fst x <? fst y)%nat).

Fixpoint least (cands : list Node) : option Node :=
  match cands with
  | [] => None
  | x :: rest =>
      match least rest with
      | Some y => if before y x then Some y else Some x
      | None => Some x
      end
  end.

Definition select (remaining : list Node) : option Node :=
  least (filter (ready remaining) remaining).

Definition remove_node (i : nat) (remaining : list Node) : list Node :=
  filter (fun y => negb (Nat.eqb (fst y) i)) remaining.

(** Topological sort: one pass is placed per round, the least ready one;
    a round in which nothing is ready means the graph has a cycle. *)
Fixpoint place (rounds : nat) (remaining : list Node) : result (list Node) :=
  match rounds with
  | O => Ok []
  | S rounds' =>
      match select remaining with
      | None => Raise PassCycleError
      | Some x =>
          rest <- place rounds' (remove_node (fst x) remaining) ;;
          Ok (x :: rest)
      end
  end.

Definition resolve_order (ps : list Pass) : result (list Node) :=
  if missing_dependency ps then Raise PassDependencyError
  else place (List.length ps) (indexed ps).

(** Each pass consumes the module produced by the previous one. *)
Fixpoint apply_in_order (ps : list Pass) (m : IRModule) : result IRModule :=
  match ps with
  | [] => Ok m
  | p :: rest => m' <- apply p m ;; apply_in_order rest m'
  end.

Definition under_ceiling (ceiling : Z) (p : Pass) : bool :=
  (pass_level p <=? ceiling)%Z.

Definition run (m : IRModule) (ps : list Pass) (ceiling : Z) : result IRModule :=
  order <- resolve_order ps ;;
  apply_in_order (filter (under_ceiling ceiling) (map snd order)) m.

(** The dependency graph over a set of nodes, and what a cycle is. *)
Definition requires (nodes : list Node) (x y : Node) : Prop :=
  In x nodes /\ In y nodes
  /\ In (name (info (snd y))) (required (info (snd x))).

Definition cyclic (ps : list Pass) : Prop :=
  exists x, Relation_Operators.clos_trans Node (requires (indexed ps)) x x.

(** An order in which every pass was, when placed, the least ready one
    among those not placed yet. *)
Inductive scheduled : list Node -> Prop :=
| scheduled_nil : scheduled []
| scheduled_cons x l :
    ready (x :: l) x = true ->
    (forall y, In y l -> ready (x :: l) y = true -> before x y = true) ->
    scheduled l ->
    scheduled (x :: l).

End Runner.

End Pipeline.


(* ===================================================================== *)
(** ** Concrete scenarios                                                 *)
(* ===================================================================== *)

Module Scenario.

Import Transform Builder Pipeline.

(** A toy IR: a unit is a number, a module the list of the names of the
    passes that ran on it. *)
Definition U : Type := nat.
Definition M : Type := list string.
Definition C : Type := unit.

(** [def transform(func, mod, ctx): return func]. *)
Definition transform : PyFunction U M C :=
  mkPyFunction "transform" (fun u _ _ => Ok u).

(** [class TestReplaceFunc] of the docstring: [transform_function]
    returns the function given to the constructor. *)
Definition TestReplaceFunc : PyClass U M C :=
  mkPyClass "TestReplaceFunc" true
    (fun args =>
       match args with
       | [PyInt z] =>
           Ok (mkPyInstance
                 (fun meth =>
                    if String.eqb meth "transform_function"
                    then Some (fun _ _ _ => Ok (Z.to_nat z))
                    else None))
       | _ => Raise (TypeError "__init__() takes 2 positional arguments")
       end).

Definition w_data : TensorData := mkTensorData [2%Z] "float32" [1%Z; 2%Z].

(** A native [PassInfo] constructor that takes what fits a 32-bit int. *)
Definition c_int_PassInfo (opt : Z) (n : string) (req : list string) (tr : bool)
  : result PassInfo :=
  if ((-2147483648 <=? opt) && (opt <=? 2147483647))%Z
  then Ok (mkPassInfo opt n req tr)
  else Raise (ValueError "opt_level does not fit a C int").

(** A native conversion that knows a few dtypes only. *)
Definition known_dtype_nd_array (d : TensorData) : result TensorData :=
  if existsb (String.eqb (t_dtype d)) ["float32"; "float64"; "int32"; "int64"]
  then Ok d
  else Raise (ValueError ("Do not know how to handle type " ++ t_dtype d)).

Definition complex_data : TensorData := mkTensorData [1%Z] "complex128" [0%Z].

(** A native [BindParams] that refuses what is not an NDArray and keeps
    the function name and the parameter names it was given. *)
Definition recording_BindParams (fn : string) (d : dict value) : result (Pass U M C) :=
  if forallb isinstance_NDArray (values d)
  then Ok (MakeFunctionPass (fun u _ _ => Ok u) (mkPassInfo 0 fn (keys d) false))
  else Raise (TypeError "BindParams expects NDArray values").

(** [function_pass] and [dataflowblock_pass] over that constructor. *)
Definition function_pass := @Transform.function_pass U M C c_int_PassInfo.
Definition dataflowblock_pass := @Transform.dataflowblock_pass U M C c_int_PassInfo.
Definition create_function_pass := @Transform.create_function_pass U M C c_int_PassInfo.
Definition BindParams :=
  @Transform.BindParams U M C known_dtype_nd_array recording_BindParams.

(** A class object that is falsy (its metaclass defines [__bool__]). *)
Definition FalsyPass : PyClass U M C :=
  mkPyClass "FalsyPass" false (fun _ => Ok (mkPyInstance (fun _ => None))).

(** A pass that leaves its name in the module it is applied to. *)
Definition named_pass (n : string) (lvl : Z) (req : list string) : Pass U M C :=
  MakeFunctionPass (fun u _ _ => Ok u) (mkPassInfo lvl n req false).

Definition log_apply (p : Pass U M C) (m : M) : result M :=
  Ok (m ++ [name (info p)])%list.

Definition passA : Pass U M C := named_pass "A" 0 [].
Definition passB : Pass U M C := named_pass "B" 0 ["A"].
Definition passB_missing : Pass U M C := named_pass "B" 0 ["Missing"].
Definition cycA : Pass U M C := named_pass "A" 0 ["B"].
Definition cycB : Pass U M C := named_pass "B" 0 ["A"].

(** Builder scenario: a function frame holding a dataflow block. *)
Definition x_var : Var := mkVar "x" (Some (DynTensorType 2 (Some "float32"))) None.
Definition add_x_x : Expr := ECall "add" (EVar x_var) (EVar x_var).

Definition no_type (_ : Expr) : option Ty := None.
Definition no_shape (_ : Expr) : option ShapeExpr := None.
Definition any_shape (_ : option ShapeExpr) (_ : list PrimExpr) : bool := true.
Definition numbered (used : list string) (is_df : bool) : string :=
  (if is_df then "lv" else "gv") ++ (if Nat.eqb (List.length used) 0 then "0" else "n").

Definition in_dataflow_block : FrameStack :=
  [new_frame (KBlock true); new_frame KFunction].

(** Module frame, plain block with one binding, closed in reverse. *)
Definition nested_session : list op :=
  [Enter (new_frame KModule); Enter (new_frame (KBlock false));
   Emit add_x_x false; Exit; Exit].

Definition float_vector : TensorType :=
  mkTensorType (Some [IntImm 3]) (DynTensorType 1 (Some "float32")).

End Scenario.

(* ===================================================================== *)
(** ** Further concrete inputs                                            *)
(* ===================================================================== *)

Module ScenarioMore.

Import Transform Builder IRBuilder.

Section Objects.

Variables (IRUnit IRModule PassContext : Type).

(** The integer [0] handed over as [pass_func]: falsy, no [__name__]. *)
Definition zero : PassArg IRUnit IRModule PassContext := ArgObject _ _ _ false None.

(** A truthy object that is neither a function nor a class and has no
    [__name__], such as a [functools.partial]. *)
Definition anonymous_object : PassArg IRUnit IRModule PassContext :=
  ArgObject _ _ _ true None.

End Objects.

(** A native [Tensor] that keeps the dimensions it is given. *)
Definition accept_Tensor (shape : option (list Dim)) (dtype : option string) (ndim : Z)
  : result TensorType :=
  Ok (mkTensorType
        (option_map
           (flat_map (fun d => match d with DimExpr e => [e] | DimStr _ => [] end))
           shape)
        (DynTensorType ndim dtype)).

(** The shape [["m", 3]]. *)
Definition m_by_3 : list Dim := [DimStr "m"; DimExpr (IntImm 3)].

(** A list of type arguments whose second entry is an [int]. *)
Definition mixed_type_args : TypeArgs :=
  TypeArgsList [ElemTensorType Scenario.float_vector; ElemOther (PyInt 1);
                ElemTensorType Scenario.float_vector].

End ScenarioMore.

(* ===================================================================== *)
(** ** Properties of the pass registration layer                          *)
(* ===================================================================== *)

Module TransformSpec.

Import Transform.

Section Registration.

Variables (IRUnit IRModule PassContext : Type).

Variable ffi_PassInfo : Z -> string -> list string -> bool -> result PassInfo.

#[local] Abbreviation PassArg := (Transform.PassArg IRUnit IRModule PassContext).
#[local] Abbreviation PyFunction := (Transform.PyFunction IRUnit IRModule PassContext).
#[local] Abbreviation PyClass := (Transform.PyClass IRUnit IRModule PassContext).
#[local] Abbreviation Pass := (Transform.Pass IRUnit IRModule PassContext).
#[local] Abbreviation Created := (Transform.Created IRUnit IRModule PassContext).
#[local] Abbreviation function_pass :=
  (@Transform.function_pass IRUnit IRModule PassContext ffi_PassInfo).
#[local] Abbreviation dataflowblock_pass :=
  (@Transform.dataflowblock_pass IRUnit IRModule PassContext ffi_PassInfo).
#[local] Abbreviation create_function_pass :=
  (@Transform.create_function_pass IRUnit IRModule PassContext ffi_PassInfo).
#[local] Abbreviation create_dataflowblock_pass :=
  (@Transform.create_dataflowblock_pass IRUnit IRModule PassContext ffi_PassInfo).
#[local] Abbreviation native_accepts := (Transform.native_accepts ffi_PassInfo).

Lemma normalize_required_well_typed (r : Required) :
  well_typed_required r = true ->
  normalize_required r = Ok (required_names r).
Proof.
  unfold normalize_required.
  destruct r as [| l | l | t]; simpl; try discriminate; intros _; try reflexivity.
  - destruct l; reflexivity.
  - destruct l; reflexivity.
Qed.

Lemma pick_name_decorated (n : option string) (a : PassArg) (dn : string) :
  decorated_name a = Some dn ->
  pick_name n a = Ok (expected_name n dn).
Proof.
  intros Ha.
  assert (Hn : arg_name a = Ok dn).
  { destruct a as [| f | c | t o]; simpl in *; try discriminate; congruence. }
  destruct n as [s|]; simpl; [|exact Hn].
  destruct (String.eqb s ""); simpl; [exact Hn | reflexivity].
Qed.

Lemma create_function_pass_records
    (opt : Z) (n : option string) (req : list string) (tr : bool)
    (a : PassArg) (dn : string) :
  decorated_name a = Some dn ->
  native_accepts opt ->
  exists c, create_function_pass opt n req tr a = Ok c
            /\ recorded_info c = mkPassInfo opt (expected_name n dn) req tr.
Proof.
  intros Ha Hacc. unfold Transform.create_function_pass.
  rewrite (pick_name_decorated n a Ha). cbn [Py.bind].
  rewrite (Hacc _ _ _). cbn [Py.bind].
  destruct a as [| f | c | t o]; simpl in Ha; try discriminate;
    eexists; split; reflexivity.
Qed.

Lemma create_dataflowblock_pass_records
    (opt : Z) (n : option string) (req : list string) (tr : bool)
    (a : PassArg) (dn : string) :
  decorated_name a = Some dn ->
  native_accepts opt ->
  exists c, create_dataflowblock_pass opt n req tr a = Ok c
            /\ recorded_info c = mkPassInfo opt (expected_name n dn) req tr.
Proof.
  intros Ha Hacc. unfold Transform.create_dataflowblock_pass.
  rewrite (pick_name_decorated n a Ha). cbn [Py.bind].
  rewrite (Hacc _ _ _). cbn [Py.bind].
  destruct a as [| f | c | t o]; simpl in Ha; try discriminate;
    eexists; split; reflexivity.
Qed.

(** C8. With [opt_level] omitted, [function_pass] and
    [dataflowblock_pass] raise [ValueError] whatever the other arguments
    are; no pass, class or decorator is returned. *)
Theorem opt_level_omitted_raises_ValueError
    (pass_func : PassArg) (name : option string) (required : Required)
    (traceable : bool) :
  function_pass pass_func None name required traceable
    = Raise (ValueError "Please provide opt_level for the function pass.")
  /\ dataflowblock_pass pass_func None name required traceable
    = Raise (ValueError "Please provide opt_level for the dataflowblock pass.").
Proof. split; reflexivity. Qed.

(** C2. Given a transformation function (plain or lambda) and an integer
    [opt_level] that the native [PassInfo] takes, [function_pass]
    returns a [FunctionPass] and [dataflowblock_pass] a
    [DataflowBlockPass], for every optional [name], [required] (of its
    documented type) and [traceable]. *)
Theorem decorating_function_returns_pass
    (f : PyFunction) (opt : Z) (name : option string) (required : Required)
    (traceable : bool) :
  well_typed_required required = true ->
  native_accepts opt ->
  (exists p : Pass,
      function_pass (ArgFunction f) (Some opt) name required traceable
        = Ok (Direct (CreatedPass p))
      /\ pass_kind p = FunctionPass
      /\ pass_func p = fn_call f
      /\ opt_level (info p) = opt)
  /\ (exists p : Pass,
      dataflowblock_pass (ArgFunction f) (Some opt) name required traceable
        = Ok (Direct (CreatedPass p))
      /\ pass_kind p = DataflowBlockPass
      /\ pass_func p = fn_call f
      /\ opt_level (info p) = opt).
Proof.
  intros Hreq Hacc.
  unfold Transform.function_pass, Transform.dataflowblock_pass.
  rewrite (normalize_required_well_typed _ Hreq). cbn [Py.bind arg_truthy].
  unfold Transform.create_function_pass, Transform.create_dataflowblock_pass.
  rewrite (pick_name_decorated name (ArgFunction f) (dn := fn_name f) eq_refl).
  cbn [Py.bind]. rewrite (Hacc _ _ _). cbn [Py.bind].
  split; eexists; repeat split.
Qed.

(** C9. The name recorded in the [PassInfo] of a registration is the
    given [name]; when [name] is omitted or empty it is the [__name__]
    of the decorated function or class.  This holds for both entry
    points, used as decorators or called directly (with an argument that
    is truthy, as functions and ordinary classes are), whenever the
    native [PassInfo] takes the [opt_level]. *)
Theorem recorded_name_defaults_to_dunder_name
    (a : PassArg) (dn : string) (opt : Z) (name : option string)
    (required : Required) (traceable : bool) :
  decorated_name a = Some dn ->
  well_typed_required required = true ->
  native_accepts opt ->
  let recorded (r : result Created) :=
    exists c, r = Ok c /\ Transform.name (recorded_info c) = expected_name name dn in
  (arg_truthy a = true ->
   exists c, function_pass a (Some opt) name required traceable = Ok (Direct c)
             /\ recorded (Ok c))
  /\ (exists d, function_pass (ArgNone _ _ _) (Some opt) name required traceable
                = Ok (Decorator d)
                /\ recorded (d a))
  /\ (arg_truthy a = true ->
      exists c, dataflowblock_pass a (Some opt) name required traceable = Ok (Direct c)
                /\ recorded (Ok c))
  /\ (exists d, dataflowblock_pass (ArgNone _ _ _) (Some opt) name required traceable
                = Ok (Decorator d)
                /\ recorded (d a)).
Proof.
  intros Ha Hreq Hacc recorded. subst recorded.
  unfold Transform.function_pass, Transform.dataflowblock_pass.
  rewrite (normalize_required_well_typed _ Hreq). cbn [Py.bind arg_truthy].
  destruct (@create_function_pass_records opt name (required_names required) traceable a
              dn Ha Hacc) as [c1 [Hc1 Hn1]].
  destruct (@create_dataflowblock_pass_records opt name (required_names required) traceable
              a dn Ha Hacc) as [c2 [Hc2 Hn2]].
  assert (Hr1 : Transform.name (recorded_info c1) = expected_name name dn)
    by (rewrite Hn1; reflexivity).
  assert (Hr2 : Transform.name (recorded_info c2) = expected_name name dn)
    by (rewrite Hn2; reflexivity).
  split; [|split; [|split]].
  - intros Ht. rewrite Ht, Hc1. cbn [Py.bind].
    exists c1. split; [reflexivity|]. exists c1. split; [reflexivity | exact Hr1].
  - eexists. split; [reflexivity|]. exists c1. split; [exact Hc1 | exact Hr1].
  - intros Ht. rewrite Ht, Hc2. cbn [Py.bind].
    exists c2. split; [reflexivity|]. exists c2. split; [reflexivity | exact Hr2].
  - eexists. split; [reflexivity|]. exists c2. split; [exact Hc2 | exact Hr2].
Qed.

(** [expected_name] by cases on the [name] argument. *)
Lemma expected_name_cases (n : option string) (dn : string) :
  ((n = None \/ n = Some "") -> expected_name n dn = dn)
  /\ (forall s, n = Some s -> s <> "" -> expected_name n dn = s).
Proof.
  split.
  - intros [-> | ->]; reflexivity.
  - intros s -> Hs. simpl.
    destruct (String.eqb_spec s ""); [contradiction | reflexivity].
Qed.

(** C3 (amended). Decorating a function yields a pass object; decorating
    a class (a truthy one, as classes ordinarily are) yields a pass class
    of the same kind, with the same [PassInfo], and every instance of
    that class is a pass object whose transformation calls the
    designated method of the wrapped instance.  Both suppose an
    [opt_level] the native [PassInfo] takes. *)
Theorem decorating_class_returns_pass_class
    (c : PyClass) (f : PyFunction) (opt : Z) (name : option string)
    (required : Required) (traceable : bool) :
  well_typed_required required = true ->
  cls_truthy c = true ->
  native_accepts opt ->
  let info_of dn := mkPassInfo opt (expected_name name dn) (required_names required) traceable in
  let wraps (kd : PassKind) (meth : string) (r : result (Decorated IRUnit IRModule PassContext)) :=
    exists w,
      r = Ok (Direct (CreatedClass w))
      /\ wrapper_base w = kd
      /\ wrapper_name w = cls_name c
      /\ wrapper_info w = info_of (cls_name c)
      /\ (forall args e, cls_init c args = Raise e -> wrapper_new w args = Raise e)
      /\ (forall args inst, cls_init c args = Ok inst ->
            exists p : Pass,
              wrapper_new w args = Ok p
              /\ pass_kind p = kd
              /\ info p = info_of (cls_name c)
              /\ _inst p = Some inst
              /\ (forall g u m ctx, inst_method inst meth = Some g ->
                    pass_func p u m ctx = g u m ctx)
              /\ (forall u m ctx, inst_method inst meth = None ->
                    pass_func p u m ctx = Raise (AttributeError meth))) in
  let makes (kd : PassKind) (r : result (Decorated IRUnit IRModule PassContext)) :=
    exists p : Pass,
      r = Ok (Direct (CreatedPass p))
      /\ pass_kind p = kd
      /\ info p = info_of (fn_name f)
      /\ pass_func p = fn_call f in
  wraps FunctionPass "transform_function"
        (function_pass (ArgClass c) (Some opt) name required traceable)
  /\ makes FunctionPass
        (function_pass (ArgFunction f) (Some opt) name required traceable)
  /\ wraps DataflowBlockPass "transform_dataflowblock"
        (dataflowblock_pass (ArgClass c) (Some opt) name required traceable)
  /\ makes DataflowBlockPass
        (dataflowblock_pass (ArgFunction f) (Some opt) name required traceable).
Proof.
  intros Hreq Htruthy Hacc info_of wraps makes. subst info_of wraps makes.
  unfold Transform.function_pass, Transform.dataflowblock_pass.
  rewrite (normalize_required_well_typed _ Hreq). cbn [Py.bind arg_truthy].
  rewrite Htruthy.
  unfold Transform.create_function_pass, Transform.create_dataflowblock_pass.
  rewrite (pick_name_decorated name (ArgClass c) (dn := cls_name c) eq_refl).
  rewrite (pick_name_decorated name (ArgFunction f) (dn := fn_name f) eq_refl).
  cbn [Py.bind]. rewrite !(Hacc _ _ _). cbn [Py.bind].
  repeat split.
  - eexists; repeat split; simpl.
    + intros args e He. rewrite He. reflexivity.
    + intros args inst Hi. rewrite Hi. simpl.
      eexists; repeat split; simpl; unfold call_method.
      * intros g u m ctx Hg. rewrite Hg. reflexivity.
      * intros u m ctx Hg. rewrite Hg. reflexivity.
  - eexists; repeat split.
  - eexists; repeat split; simpl.
    + intros args e He. rewrite He. reflexivity.
    + intros args inst Hi. rewrite Hi. simpl.
      eexists; repeat split; simpl; unfold call_method.
      * intros g u m ctx Hg. rewrite Hg. reflexivity.
      * intros u m ctx Hg. rewrite Hg. reflexivity.
  - eexists; repeat split.
Qed.

(** *** BindParams *)

Variable ffi_nd_array : TensorData -> result TensorData.
Variable ffi_BindParams : string -> dict value -> result Pass.

#[local] Abbreviation tvm_nd_array := (Transform.tvm_nd_array ffi_nd_array).
#[local] Abbreviation bind_params_step := (Transform.bind_params_step ffi_nd_array).
#[local] Abbreviation bind_params_loop := (Transform.bind_params_loop ffi_nd_array).
#[local] Abbreviation stored_as := (Transform.stored_as ffi_nd_array).
#[local] Abbreviation convertible := (Transform.convertible ffi_nd_array).
#[local] Abbreviation BindParams :=
  (@Transform.BindParams IRUnit IRModule PassContext ffi_nd_array ffi_BindParams).

Lemma dict_set_fresh {V} (d : dict V) (k : string) (v : V) :
  ~ In k (keys d) -> dict_set d k v = (d ++ [(k, v)])%list.
Proof.
  induction d as [| [k' v'] d IH]; simpl; intros Hk; [reflexivity|].
  destruct (String.eqb_spec k' k) as [-> | _].
  - exfalso. apply Hk. now left.
  - rewrite IH; [reflexivity|]. intros Hin. apply Hk. now right.
Qed.

(** One round of the loop on an accepted, convertible value. *)
Lemma bind_params_step_stores (acc : dict value) (k : string) (v : value) :
  is_tensor v = true -> convertible v ->
  exists v', stored_as v v' /\ isinstance_NDArray v' = true
             /\ bind_params_step acc (k, v) = Ok (dict_set acc k v').
Proof.
  intros Hv Hc. unfold Transform.bind_params_step.
  destruct v; simpl in Hv; try discriminate.
  - destruct Hc as [d' Hd']. exists (NDArray d').
    split; [now exists d' | split; [reflexivity|]].
    cbn [isinstance_np_ndarray Transform.tvm_nd_array]. rewrite Hd'. reflexivity.
  - exists (NDArray d). repeat split.
Qed.

(** What is stored for each key of the mapping, in the same order. *)
#[local] Abbreviation stored_items :=
  (Forall2 (fun kv kv' : string * value =>
              fst kv' = fst kv /\ stored_as (snd kv) (snd kv')
              /\ isinstance_NDArray (snd kv') = true)).




End Registration.

End TransformSpec.

(* ===================================================================== *)
(** ** Properties of the builder                                          *)
(* ===================================================================== *)

Module BuilderSpec.

Import Builder.

Section Emitter.

Variable infer_type : Expr -> option Ty.
Variable infer_shape : Expr -> option ShapeExpr.
Variable shape_matches : option ShapeExpr -> list PrimExpr -> bool.
Variable fresh_name : list string -> bool -> string.

#[local] Abbreviation emit := (Builder.emit infer_type infer_shape fresh_name).
#[local] Abbreviation emit_match_shape :=
  (Builder.emit_match_shape infer_type infer_shape shape_matches fresh_name).
#[local] Abbreviation step := (Builder.step infer_type infer_shape shape_matches fresh_name).
#[local] Abbreviation run_ops :=
  (Builder.run_ops infer_type infer_shape shape_matches fresh_name).

(** *** Depth bookkeeping *)

Lemma declare_depth (n : string) (s : FrameStack) :
  depth (declare n s) = depth s.
Proof.
  unfold depth.
  induction s as [| f s IH]; simpl; [reflexivity|].
  destruct (is_function (kind f)); simpl; [reflexivity|].
  now rewrite IH.
Qed.

Lemma add_arg_depth (v : Var) (s s' : FrameStack) :
  add_arg v s = Some s' -> depth s' = depth s.
Proof.
  revert s'. induction s as [| f s IH]; simpl; intros s' H; [discriminate|].
  destruct (is_function (kind f)).
  - injection H as <-. reflexivity.
  - destruct (add_arg v s) as [s0|] eqn:E; simpl in H; [|discriminate].
    injection H as <-. simpl. f_equal. now apply IH.
Qed.

Lemma enter_depth (f : Frame) (s s' : FrameStack) :
  enter f s = Ok s' -> depth s' = S (depth s).
Proof.
  unfold enter. destruct (legal_enter (kind f) s); [|discriminate].
  intros H. injection H as <-. reflexivity.
Qed.

Lemma exit_depth (s s' : FrameStack) (n : IRNode) :
  exit s = Ok (n, s') -> depth s = S (depth s').
Proof.
  unfold exit. destruct s as [| top rest]; [discriminate|].
  destruct (finalize top) as [n0|e]; simpl; [|discriminate].
  destruct rest as [| parent rest']; intros H; injection H as _ <-; reflexivity.
Qed.

Lemma emit_depth (s s' : FrameStack) (value : Expr) (d : bool) (v : Var) :
  emit s value d = Ok (v, s') -> depth s' = depth s.
Proof.
  unfold Builder.emit, _ffi_api_Emit.
  destruct s as [| top rest]; cbn [current Py.bind tl]; [discriminate|].
  destruct (is_block (kind top)); [|discriminate].
  intros H.
  apply (f_equal (fun r => match r with Ok (_, s0) => depth s0 | Raise _ => 0 end)) in H.
  cbn beta iota in H. rewrite <- H, declare_depth. reflexivity.
Qed.

Lemma emit_match_shape_depth (s s' : FrameStack) (value : Expr)
    (pattern : list PrimExpr) (e d : bool) (r : option Var) :
  emit_match_shape s value pattern e d = Ok (r, s') -> depth s' = depth s.
Proof.
  unfold Builder.emit_match_shape, _ffi_api_EmitMatchShape.
  destruct (shape_matches (infer_shape value) pattern); [|discriminate].
  destruct e.
  - destruct (_ffi_api_Emit infer_type infer_shape fresh_name s value d)
      as [[v s0]|err] eqn:E; simpl; [|discriminate].
    intros H. injection H as _ <-. exact (emit_depth _ _ _ E).
  - intros H. injection H as _ <-. reflexivity.
Qed.

Lemma output_depth (s s' : FrameStack) (vars r : list Var) :
  output s vars = Ok (r, s') -> depth s' = depth s.
Proof.
  unfold output, _ffi_api_DataflowBlockOutput, current.
  destruct s as [| top rest]; simpl; [discriminate|].
  destruct (is_dataflow_block (kind top)); simpl; [|discriminate].
  intros H. injection H as _ <-. reflexivity.
Qed.

Lemma arg_depth (s s' : FrameStack) (n : string) (t : TypeArg)
    (sh : option ShapeExpr) (v : Var) :
  arg s n t sh = Ok (v, s') -> depth s' = depth s.
Proof.
  assert (Hffi : forall ty sh0, _ffi_api_Arg s n ty sh0 = Ok (v, s') -> depth s' = depth s).
  { intros ty sh0. unfold _ffi_api_Arg.
    destruct (add_arg _ s) as [s0|] eqn:E; [|discriminate].
    intros H. injection H as _ <-. exact (add_arg_depth _ _ E). }
  unfold arg. destruct t as [t | t]; [apply Hffi|].
  destruct sh; [discriminate | apply Hffi].
Qed.

Lemma run_ops_app (a b : list op) (s : FrameStack) :
  run_ops (a ++ b) s = (s' <- run_ops a s ;; run_ops b s').
Proof.
  revert s. induction a as [| o a IH]; intros s; simpl; [reflexivity|].
  destruct (step o s) as [s0|e]; simpl; [apply IH | reflexivity].
Qed.

Lemma matched_keeps_depth (ops : list op) :
  matched ops ->
  forall s s', run_ops ops s = Ok s' -> depth s' = depth s.
Proof.
  induction 1 as [| f body Hb IH | a b Ha IHa Hb IHb | v d | v p e d | vs | n t sh];
    intros s s' Hrun.
  - simpl in Hrun. now injection Hrun as <-.
  - cbn [Builder.run_ops] in Hrun.
    unfold Builder.step at 1 in Hrun.
    destruct (enter f s) as [s1|] eqn:He; simpl in Hrun; [|discriminate].
    rewrite run_ops_app in Hrun.
    destruct (run_ops body s1) as [s2|] eqn:Hbody; simpl in Hrun; [|discriminate].
    destruct (exit s2) as [[n s3]|] eqn:Hx; simpl in Hrun; [|discriminate].
    injection Hrun as <-.
    apply enter_depth in He. apply IH in Hbody. apply exit_depth in Hx. lia.
  - rewrite run_ops_app in Hrun.
    destruct (run_ops a s) as [s1|] eqn:H1; simpl in Hrun; [|discriminate].
    apply IHa in H1. apply IHb in Hrun. lia.
  - simpl in Hrun.
    destruct (emit s v d) as [[x s1]|] eqn:E; simpl in Hrun; [|discriminate].
    injection Hrun as <-. exact (emit_depth _ _ _ E).
  - simpl in Hrun.
    destruct (emit_match_shape s v p e d) as [[x s1]|] eqn:E; simpl in Hrun; [|discriminate].
    injection Hrun as <-. exact (emit_match_shape_depth _ _ _ _ _ E).
  - simpl in Hrun.
    destruct (output s vs) as [[x s1]|] eqn:E; simpl in Hrun; [|discriminate].
    injection Hrun as <-. exact (output_depth _ _ E).
  - simpl in Hrun.
    destruct (arg s n t sh) as [[x s1]|] eqn:E; simpl in Hrun; [|discriminate].
    injection Hrun as <-. exact (arg_depth _ _ _ _ E).
Qed.

(** C4. After a sequence of enter/exit calls that pair up (with emitter
    calls in between) and all succeed, the stack is as deep as before;
    and [exit] on an empty stack fails with [FrameStackError]. *)
Theorem matched_enter_exit_restores_depth :
  (forall ops s s',
      matched ops -> run_ops ops s = Ok s' -> depth s' = depth s)
  /\ exit [] = Raise FrameStackError
  /\ (forall s, depth s = 0 -> step Exit s = Raise FrameStackError).
Proof.
  split; [|split].
  - intros ops s s' Hm Hrun. exact (matched_keeps_depth Hm _ Hrun).
  - reflexivity.
  - intros [| f s] Hd; [reflexivity | discriminate].
Qed.

(** *** Emitter calls *)

Lemma emit_appends_binding (s s' : FrameStack) (value : Expr) (d : bool) (v : Var) :
  emit s value d = Ok (v, s') ->
  exists top top',
    current s = Ok top /\ current s' = Ok top'
    /\ is_block (kind top) = true
    /\ kind top' = kind top
    /\ pending_bindings top' = (pending_bindings top ++ [mkBinding v value d])%list.
Proof.
  unfold Builder.emit, _ffi_api_Emit.
  destruct s as [| top rest]; cbn [current Py.bind tl]; [discriminate|].
  destruct (is_block (kind top)) eqn:Hb; [|discriminate].
  intros H.
  assert (Hf : is_function (kind top) = false) by (destruct (kind top); simpl in *; congruence).
  cbn [declare] in H.
  change (kind (set_bindings top _)) with (kind top) in H.
  rewrite Hf in H. cbn [enclosing_declared] in H. rewrite Hf in H.
  injection H as Hv Hs. subst s' v.
  eexists top, _. repeat split. exact Hb.
Qed.

(** C5. A successful [emit_match_shape] with [emit_var] true does what
    [emit] does (one binding of the value is appended to the current block
    frame) and returns the created var; with [emit_var] false it returns
    nothing. *)
Theorem emit_match_shape_returns_var_iff_emit_var
    (s : FrameStack) (value : Expr) (pattern : list PrimExpr) (is_df : bool) :
  (forall r s',
      emit_match_shape s value pattern true is_df = Ok (r, s') ->
      exists v top top',
        r = Some v
        /\ emit s value is_df = Ok (v, s')
        /\ current s = Ok top /\ current s' = Ok top'
        /\ pending_bindings top' = (pending_bindings top ++ [mkBinding v value is_df])%list)
  /\ (forall r s',
      emit_match_shape s value pattern false is_df = Ok (r, s') ->
      r = None /\ s' = s).
Proof.
  unfold Builder.emit_match_shape, _ffi_api_EmitMatchShape.
  destruct (shape_matches (infer_shape value) pattern); split; intros r s' H;
    try discriminate.
  - destruct (_ffi_api_Emit infer_type infer_shape fresh_name s value is_df)
      as [[v s0]|err] eqn:E; cbn [Py.bind] in H; [|discriminate].
    injection H as <- <-.
    destruct (emit_appends_binding _ _ _ E) as [top [top' [H1 [H2 [_ [_ H3]]]]]].
    exists v, top, top'. repeat split; assumption.
  - injection H as <- <-. split; reflexivity.
Qed.

(** C6. A successful [output] returns the vars it was given, in the same
    order; they are recorded as the outputs of the current dataflow
    block. *)
Theorem output_returns_its_arguments
    (s s' : FrameStack) (vars r : list Var) :
  output s vars = Ok (r, s') ->
  r = vars
  /\ exists top top',
       current s = Ok top /\ is_dataflow_block (kind top) = true
       /\ current s' = Ok top' /\ output_vars top' = vars.
Proof.
  unfold output, _ffi_api_DataflowBlockOutput.
  destruct s as [| top rest]; cbn [current Py.bind tl]; [discriminate|].
  destruct (is_dataflow_block (kind top)) eqn:Hk; cbn [Py.bind]; [|discriminate].
  intros H. injection H as <- <-.
  split; [reflexivity|].
  exists top, (set_outputs top vars). repeat split. exact Hk.
Qed.

Lemma add_arg_records (v : Var) (s s' : FrameStack) :
  add_arg v s = Some s' ->
  exists f f',
    last_function_frame s = Some f /\ last_function_frame s' = Some f'
    /\ args f' = (args f ++ [v])%list.
Proof.
  revert s'. induction s as [| f s IH]; intros s' H; cbn [add_arg] in H; [discriminate|].
  cbn [last_function_frame].
  destruct (is_function (kind f)) eqn:Hf.
  - injection H as <-. cbn [last_function_frame].
    change (kind (set_declared _ _)) with (kind f). rewrite Hf.
    eexists f, _. repeat split.
  - destruct (add_arg v s) as [s0|] eqn:E; cbn [option_map] in H; [|discriminate].
    injection H as <-. cbn [last_function_frame]. rewrite Hf.
    exact (IH _ eq_refl).
Qed.

(** C10. [arg] with a [TensorType] raises [ValueError] when a shape is
    given as well; without one, the parameter is created from the type
    and the shape held by the [TensorType]. *)
Theorem arg_with_tensor_type
    (s : FrameStack) (name : string) (ty : TensorType) :
  (forall shape,
      arg s name (IsTensorType ty) (Some shape)
        = Raise (ValueError "Cannot specify the shape if we use TensorType"))
  /\ arg s name (IsTensorType ty) None = _ffi_api_Arg s name (tt_type ty) (tt_shape ty)
  /\ (forall v s',
      arg s name (IsTensorType ty) None = Ok (v, s') ->
      v = mkVar name (Some (tt_type ty)) (tt_shape ty)
      /\ exists f f',
           last_function_frame s = Some f /\ last_function_frame s' = Some f'
           /\ args f' = (args f ++ [v])%list).
Proof.
  split; [|split]; [reflexivity | reflexivity |].
  intros v s'. cbn [arg]. unfold _ffi_api_Arg.
  destruct (add_arg _ s) as [s0|] eqn:E; [|discriminate].
  intros H. injection H as <- <-.
  split; [reflexivity|]. exact (add_arg_records _ _ E).
Qed.

End Emitter.

End BuilderSpec.

(* ===================================================================== *)
(** ** Properties of the pipeline runner                                  *)
(* ===================================================================== *)

Module PipelineSpec.

Unset Implicit Arguments.

Import Transform Pipeline.

Section Runner.

Variables (IRUnit IRModule PassContext : Type).

#[local] Abbreviation Pass := (Transform.Pass IRUnit IRModule PassContext).
#[local] Abbreviation Node := (Pipeline.Node IRUnit IRModule PassContext).

Variable apply : Pass -> IRModule -> result IRModule.

#[local] Abbreviation run := (Pipeline.run apply).
#[local] Abbreviation apply_in_order := (Pipeline.apply_in_order apply).

(** *** The tie-break order *)

Lemma before_spec (x y : Node) :
  before x y = true <->
  (pass_level (snd x) < pass_level (snd y))%Z
  \/ (pass_level (snd x) = pass_level (snd y) /\ fst x < fst y).
Proof.
  unfold before.
  rewrite orb_true_iff, andb_true_iff, Z.ltb_lt, Z.eqb_eq, Nat.ltb_lt.
  reflexivity.
Qed.

Lemma before_false (x y : Node) :
  before x y = false <->
  (pass_level (snd y) < pass_level (snd x))%Z
  \/ (pass_level (snd x) = pass_level (snd y) /\ fst y <= fst x).
Proof.
  destruct (before x y) eqn:E.
  - apply before_spec in E. split; [discriminate | lia].
  - split; [intros _ | reflexivity].
    assert (H : ~ ((pass_level (snd x) < pass_level (snd y))%Z
                   \/ (pass_level (snd x) = pass_level (snd y) /\ fst x < fst y))).
    { intros H. apply before_spec in H. congruence. }
    lia.
Qed.

Lemma least_spec (l : list Node) (x : Node) :
  least l = Some x ->
  In x l /\ forall y, In y l -> before y x = false.
Proof.
  revert x. induction l as [| a l IH]; intros x H; simpl in H; [discriminate|].
  destruct (least l) as [y|] eqn:E.
  - destruct (IH y eq_refl) as [Hin Hmin].
    destruct (before y a) eqn:Hya; injection H as <-.
    + split; [now right|].
      intros z [<- | Hz]; [|now apply Hmin].
      apply before_spec in Hya. apply before_false. lia.
    + split; [now left|].
      intros z [<- | Hz].
      * apply before_false. lia.
      * specialize (Hmin z Hz). apply before_false in Hmin, Hya.
        apply before_false. lia.
  - injection H as <-. split; [now left|].
    intros z [<- | Hz].
    + apply before_false. lia.
    + destruct l; [contradiction|]. simpl in E.
      destruct (least l); [destruct (before _ _)|]; discriminate.
Qed.

Lemma least_none (l : list Node) : least l = None -> l = [].
Proof.
  destruct l as [| a l]; [reflexivity|]. simpl.
  destruct (least l); [destruct (before _ _)|]; discriminate.
Qed.

Lemma select_some (remaining : list Node) (x : Node) :
  select remaining = Some x ->
  In x remaining /\ ready remaining x = true
  /\ forall y, In y remaining -> ready remaining y = true -> before y x = false.
Proof.
  unfold select. intros H. apply least_spec in H. destruct H as [Hin Hmin].
  apply filter_In in Hin. destruct Hin as [Hin Hr].
  repeat split; try assumption.
  intros y Hy Hry. apply Hmin. apply filter_In. now split.
Qed.

Lemma select_none (remaining : list Node) :
  select remaining = None ->
  forall x, In x remaining -> ready remaining x = false.
Proof.
  unfold select. intros H x Hx. apply least_none in H.
  destruct (ready remaining x) eqn:E; [|reflexivity].
  assert (Hin : In x (filter (ready remaining) remaining)) by (apply filter_In; now split).
  rewrite H in Hin. contradiction.
Qed.

Lemma ready_incl (l1 l2 : list Node) (x : Node) :
  incl l1 l2 -> ready l2 x = true -> ready l1 x = true.
Proof.
  unfold ready. rewrite !forallb_forall. intros Hi H y Hy. apply H, Hi, Hy.
Qed.

Lemma depends_on_spec (p q : Pass) :
  depends_on p q = true <-> In (name (info q)) (required (info p)).
Proof.
  unfold depends_on, pass_name. rewrite existsb_exists. split.
  - intros [n [Hn He]]. apply String.eqb_eq in He. now subst.
  - intros H. exists (name (info q)). split; [exact H | apply String.eqb_refl].
Qed.

Lemma not_ready_requires (l : list Node) (x : Node) :
  ready l x = false ->
  exists y, In y l /\ In (name (info (snd y))) (required (info (snd x))).
Proof.
  unfold ready. induction l as [| a l IH]; simpl; [discriminate|].
  destruct (depends_on (snd x) (snd a)) eqn:E; simpl.
  - intros _. exists a. split; [now left | now apply depends_on_spec].
  - intros H. destruct (IH H) as [y [Hy Hd]]. exists y. split; [now right | exact Hd].
Qed.

Lemma ready_spec (l : list Node) (x : Node) :
  ready l x = true <->
  forall q, In q l -> ~ In (name (info (snd q))) (required (info (snd x))).
Proof.
  unfold ready. rewrite forallb_forall. split.
  - intros H q Hq Hin. apply depends_on_spec in Hin.
    specialize (H q Hq). rewrite Hin in H. discriminate.
  - intros H q Hq. destruct (depends_on (snd x) (snd q)) eqn:E; [|reflexivity].
    exfalso. apply depends_on_spec in E. exact (H q Hq E).
Qed.

(** *** Removing the placed pass *)

Lemma remove_node_In (i : nat) (l : list Node) (y : Node) :
  In y (remove_node i l) <-> In y l /\ fst y <> i.
Proof.
  unfold remove_node. rewrite filter_In, negb_true_iff, Nat.eqb_neq. reflexivity.
Qed.

Lemma remove_node_absent (i : nat) (l : list Node) :
  ~ In i (map fst l) -> remove_node i l = l.
Proof.
  induction l as [| a l IH]; simpl; intros H; [reflexivity|].
  destruct (Nat.eqb_spec (fst a) i) as [Heq | Hne]; simpl.
  - exfalso. apply H. now left.
  - f_equal. apply IH. intros Hin. apply H. now right.
Qed.

Lemma remove_node_perm (x : Node) (l : list Node) :
  NoDup (map fst l) -> In x l ->
  Permutation (x :: remove_node (fst x) l) l.
Proof.
  induction l as [| a l IH]; intros Hnd Hin; [contradiction|].
  simpl in Hnd. inversion Hnd as [| ? ? Ha Hl]; subst.
  destruct Hin as [-> | Hin].
  - simpl. rewrite Nat.eqb_refl. simpl.
    rewrite remove_node_absent by exact Ha. reflexivity.
  - simpl. destruct (Nat.eqb_spec (fst a) (fst x)) as [Heq | Hne]; simpl.
    + exfalso. apply Ha. rewrite Heq. now apply in_map.
    + etransitivity; [apply perm_swap|]. constructor. now apply IH.
Qed.

Lemma remove_node_NoDup (i : nat) (l : list Node) :
  NoDup (map fst l) -> NoDup (map fst (remove_node i l)).
Proof.
  induction l as [| a l IH]; simpl; intros H; [constructor|].
  inversion H as [| ? ? Ha Hl]; subst.
  destruct (negb (fst a =? i)%nat); simpl; [|now apply IH].
  constructor; [|now apply IH].
  intros Hin. apply Ha. apply in_map_iff in Hin. destruct Hin as [y [Hy Hin]].
  apply remove_node_In in Hin. rewrite <- Hy. apply in_map. tauto.
Qed.

Lemma indexed_fst (ps : list Pass) : map fst (indexed ps) = seq 0 (List.length ps).
Proof.
  unfold indexed.
  assert (H : forall (l : list Pass) (k : list nat),
             List.length k = List.length l -> map fst (combine k l) = k).
  { intros l. induction l as [| a l IH]; intros [| b k] Hk; simpl in *;
      try reflexivity; try discriminate.
    f_equal. apply IH. lia. }
  apply H. apply length_seq.
Qed.

Lemma indexed_length (ps : list Pass) : List.length (indexed ps) = List.length ps.
Proof.
  pose proof (length_map fst (indexed ps)) as H.
  rewrite indexed_fst, length_seq in H. symmetry. exact H.
Qed.

Lemma indexed_NoDup (ps : list Pass) : NoDup (map fst (indexed ps)).
Proof. rewrite indexed_fst. apply seq_NoDup. Qed.

(** *** A successful sort *)

Lemma place_ok (n : nat) :
  forall (remaining order : list Node),
    List.length remaining = n ->
    NoDup (map fst remaining) ->
    place n remaining = Ok order ->
    Permutation order remaining /\ scheduled order.
Proof.
  induction n as [| n IH]; intros remaining order Hlen Hnd Hp; simpl in Hp.
  - injection Hp as <-. apply length_zero_iff_nil in Hlen. subst.
    split; constructor.
  - destruct (select remaining) as [x|] eqn:Hsel; [|discriminate].
    destruct (place n (remove_node (fst x) remaining)) as [rest|] eqn:Hrest;
      simpl in Hp; [|discriminate].
    injection Hp as <-.
    destruct (select_some _ _ Hsel) as [Hin [Hready Hmin]].
    pose proof (remove_node_perm x _ Hnd Hin) as Hperm.
    assert (Hlen' : List.length (remove_node (fst x) remaining) = n).
    { apply Permutation_length in Hperm. simpl in Hperm. lia. }
    destruct (IH _ _ Hlen' (remove_node_NoDup _ _ Hnd) Hrest) as [Hp1 Hs1].
    assert (Hall : Permutation (x :: rest) remaining).
    { etransitivity; [|exact Hperm]. now constructor. }
    split; [exact Hall|].
    constructor; [| |exact Hs1].
    + apply (ready_incl _ remaining); [|exact Hready].
      intros y Hy. exact (Permutation_in _ Hall Hy).
    + intros y Hy Hry.
      assert (Hy' : In y (remove_node (fst x) remaining))
        by exact (Permutation_in _ Hp1 Hy).
      apply remove_node_In in Hy'. destruct Hy' as [Hyin Hne].
      assert (Hr : ready remaining y = true).
      { apply (ready_incl _ (x :: rest)); [|exact Hry].
        intros z Hz. exact (Permutation_in _ (Permutation_sym Hall) Hz). }
      specialize (Hmin y Hyin Hr). apply before_false in Hmin.
      apply before_spec. lia.
Qed.

(** *** A round with nothing ready *)

Lemma fst_injective (l : list Node) (a b : Node) :
  NoDup (map fst l) -> In a l -> In b l -> fst a = fst b -> a = b.
Proof.
  induction l as [| c l IH]; intros Hnd Ha Hb Hab; [contradiction|].
  simpl in Hnd. inversion Hnd as [| ? ? Hc Hl]; subst.
  destruct Ha as [-> | Ha], Hb as [-> | Hb].
  - reflexivity.
  - exfalso. apply Hc. rewrite Hab. now apply in_map.
  - exfalso. apply Hc. rewrite <- Hab. now apply in_map.
  - now apply IH.
Qed.

Lemma walk_finds_cycle (nodes remaining : list Node) :
  NoDup (map fst remaining) ->
  incl remaining nodes ->
  (forall x, In x remaining ->
     exists y, In y remaining
               /\ In (name (info (snd y))) (required (info (snd x)))) ->
  forall (d : nat) (seen : list Node) (x : Node),
    List.length remaining <= d + List.length seen ->
    In x remaining ->
    incl seen remaining ->
    NoDup (map fst (x :: seen)) ->
    (forall z, In z seen -> clos_trans Node (requires nodes) z x) ->
    exists c, clos_trans Node (requires nodes) c c.
Proof.
  intros Hnd Hincl Hsucc.
  induction d as [| d IH]; intros seen x Hlen Hx Hseen Hnd' Hreach.
  - exfalso.
    assert (Hle : List.length (map fst (x :: seen)) <= List.length (map fst remaining)).
    { apply NoDup_incl_length; [exact Hnd'|].
      intros i Hi. apply in_map_iff in Hi. destruct Hi as [z [<- Hz]].
      apply in_map. destruct Hz as [<- | Hz]; [exact Hx | now apply Hseen]. }
    rewrite !length_map in Hle. simpl in Hle, Hlen.
    unfold Pipeline.Node in *. lia.
  - destruct (Hsucc x Hx) as [y [Hy Hdep]].
    assert (Hedge : requires nodes x y).
    { repeat split; [now apply Hincl | now apply Hincl | exact Hdep]. }
    destruct (in_dec Nat.eq_dec (fst y) (map fst (x :: seen))) as [Hin | Hnin].
    + apply in_map_iff in Hin. destruct Hin as [z [Hzy Hz]].
      assert (Hz' : In z remaining)
        by (destruct Hz as [<- | Hz]; [exact Hx | now apply Hseen]).
      assert (Heq : z = y) by exact (fst_injective _ _ _ Hnd Hz' Hy Hzy).
      subst z. destruct Hz as [<- | Hz].
      * exists x. now apply t_step.
      * exists y. eapply t_trans; [exact (Hreach y Hz) | now apply t_step].
    + apply (IH (x :: seen) y).
      * simpl. lia.
      * exact Hy.
      * intros z [<- | Hz]; [exact Hx | now apply Hseen].
      * change (NoDup (fst y :: map fst (x :: seen))). now constructor.
      * intros z [<- | Hz]; [now apply t_step|].
        eapply t_trans; [exact (Hreach z Hz) | now apply t_step].
Qed.

Lemma place_raise (nodes : list Node) (n : nat) :
  forall (remaining : list Node) (e : exn),
    List.length remaining = n ->
    NoDup (map fst remaining) ->
    incl remaining nodes ->
    place n remaining = Raise e ->
    e = PassCycleError /\ exists c, clos_trans Node (requires nodes) c c.
Proof.
  induction n as [| n IH]; intros remaining e Hlen Hnd Hincl Hp; simpl in Hp;
    [discriminate|].
  destruct (select remaining) as [x|] eqn:Hsel.
  - destruct (place n (remove_node (fst x) remaining)) as [rest|e'] eqn:Hrest;
      simpl in Hp; [discriminate|].
    injection Hp as <-.
    destruct (select_some _ _ Hsel) as [Hin _].
    pose proof (remove_node_perm x _ Hnd Hin) as Hperm.
    apply (IH (remove_node (fst x) remaining)).
    + apply Permutation_length in Hperm. simpl in Hperm. lia.
    + now apply remove_node_NoDup.
    + intros y Hy. apply remove_node_In in Hy. apply Hincl. tauto.
    + exact Hrest.
  - injection Hp as <-. split; [reflexivity|].
    destruct remaining as [| x0 remaining']; [discriminate|].
    apply (walk_finds_cycle nodes (x0 :: remaining') Hnd Hincl) with
      (d := List.length (x0 :: remaining')) (seen := []) (x := x0).
    + intros x Hx. apply not_ready_requires. exact (select_none _ Hsel x Hx).
    + simpl. lia.
    + now left.
    + intros z Hz. contradiction.
    + simpl. constructor; [intros H; contradiction | constructor].
    + intros z Hz. contradiction.
Qed.

(** *** A scheduled order has no cycle *)

Lemma first_edge (R : Node -> Node -> Prop) (a b : Node) :
  clos_trans_1n Node R a b -> exists w, R a w.
Proof. intros H. destruct H as [y Hy | y z Hy _]; now exists y. Qed.

Lemma restrict_path (x : Node) (l : list Node) :
  (forall w, ~ requires (x :: l) x w) ->
  forall a b,
    clos_trans_1n Node (requires (x :: l)) a b ->
    In b l ->
    clos_trans_1n Node (requires l) a b.
Proof.
  intros Hx a b Hpath.
  induction Hpath as [a b Hab | a y b Hay Hpath IH]; intros Hb.
  - destruct Hab as [Ha [Hb' Hd]].
    destruct Ha as [<- | Ha].
    + exfalso. apply (Hx b). repeat split; [now left | exact Hb' | exact Hd].
    + apply Relation_Operators.t1n_step. repeat split; assumption.
  - destruct Hay as [Ha [Hy Hd]].
    destruct Ha as [<- | Ha].
    + exfalso. apply (Hx y). repeat split; [now left | exact Hy | exact Hd].
    + destruct Hy as [<- | Hy].
      * exfalso. destruct (first_edge _ _ _ Hpath) as [w Hw]. exact (Hx w Hw).
      * eapply Relation_Operators.t1n_trans; [|exact (IH Hb)]. repeat split; assumption.
Qed.

Lemma scheduled_acyclic (order : list Node) :
  scheduled order ->
  forall c, ~ clos_trans_1n Node (requires order) c c.
Proof.
  induction 1 as [| x l Hready Hmin Hs IH]; intros c Hc.
  - destruct (first_edge _ _ _ Hc) as [w [Hin _]]. contradiction.
  - assert (Hx : forall w, ~ requires (x :: l) x w).
    { intros w [_ [Hw Hd]]. exact (proj1 (ready_spec _ _) Hready w Hw Hd). }
    destruct (first_edge _ _ _ Hc) as [w Hw].
    assert (Hcl : In c l).
    { destruct Hw as [[<- | Hin] [Hw Hd]]; [|exact Hin].
      exfalso. apply (Hx w). repeat split; [now left | exact Hw | exact Hd]. }
    exact (IH c (restrict_path _ _ Hx _ _ Hc Hcl)).
Qed.

Lemma requires_incl (l1 l2 : list Node) (a b : Node) :
  incl l1 l2 ->
  clos_trans Node (requires l1) a b -> clos_trans Node (requires l2) a b.
Proof.
  intros Hi H. induction H as [a b [Ha [Hb Hd]] | a y b _ IH1 _ IH2].
  - apply t_step. repeat split; [now apply Hi | now apply Hi | exact Hd].
  - eapply t_trans; eassumption.
Qed.

Lemma scheduled_suffix (l1 l2 : list Node) :
  scheduled (l1 ++ l2) -> scheduled l2.
Proof.
  induction l1 as [| a l1 IH]; simpl; intros H; [exact H|].
  inversion H; subst. now apply IH.
Qed.

Lemma forallb_false {A} (f : A -> bool) (l : list A) :
  forallb f l = false <-> exists x, In x l /\ f x = false.
Proof.
  induction l as [| a l IH]; simpl.
  - split; [discriminate | intros [x [[] _]]].
  - rewrite andb_false_iff, IH. split.
    + intros [Ha | [x [Hx Hf]]]; [exists a | exists x]; auto.
    + intros [x [[<- | Hx] Hf]]; [now left | right; now exists x].
Qed.

Lemma missing_dependency_spec (ps : list Pass) :
  missing_dependency ps = true <->
  exists p n, In p ps /\ In n (required (info p))
              /\ forall q, In q ps -> pass_name q <> n.
Proof.
  unfold missing_dependency. rewrite existsb_exists. split.
  - intros [p [Hp Hneg]]. apply negb_true_iff in Hneg.
    apply forallb_false in Hneg.
    destruct Hneg as [n [Hn Hprov]].
    exists p, n. repeat split; try assumption.
    intros q Hq Heq. unfold provided in Hprov.
    assert (Ht : existsb (fun q0 : Pass => (pass_name q0 =? n)%string) ps = true).
    { apply existsb_exists. exists q. split; [exact Hq | now apply String.eqb_eq]. }
    congruence.
  - intros [p [n [Hp [Hn Hq]]]]. exists p. split; [exact Hp|].
    apply negb_true_iff. apply forallb_false.
    exists n. split; [exact Hn|].
    unfold provided. destruct (existsb _ ps) eqn:E; [|reflexivity].
    apply existsb_exists in E. destruct E as [q [Hq' He]].
    apply String.eqb_eq in He. exfalso. exact (Hq q Hq' He).
Qed.

(** *** The resolved order *)

Lemma resolve_order_ok (ps : list Pass) (order : list Node) :
  resolve_order ps = Ok order ->
  missing_dependency ps = false
  /\ Permutation order (indexed ps)
  /\ scheduled order.
Proof.
  unfold resolve_order. destruct (missing_dependency ps); [discriminate|].
  intros H. split; [reflexivity|].
  exact (place_ok _ _ _ (indexed_length ps) (indexed_NoDup ps) H).
Qed.

Lemma resolve_order_raise (ps : list Pass) (e : exn) :
  resolve_order ps = Raise e ->
  (e = PassDependencyError /\ missing_dependency ps = true)
  \/ (e = PassCycleError /\ missing_dependency ps = false /\ cyclic ps).
Proof.
  unfold resolve_order. destruct (missing_dependency ps).
  - intros H. injection H as <-. left. split; reflexivity.
  - intros H. right.
    destruct (place_raise (indexed ps) _ _ _ (indexed_length ps) (indexed_NoDup ps)
                (incl_refl _) H) as [-> Hc].
    repeat split. exact Hc.
Qed.

Lemma resolve_order_cyclic (ps : list Pass) :
  missing_dependency ps = false -> cyclic ps ->
  resolve_order ps = Raise PassCycleError.
Proof.
  intros Hm [c Hc].
  destruct (resolve_order ps) as [order | e] eqn:E.
  - exfalso. destruct (resolve_order_ok _ _ E) as [_ [Hperm Hs]].
    apply (scheduled_acyclic _ Hs c).
    apply clos_trans_t1n.
    apply (requires_incl (indexed ps)); [|exact Hc].
    intros y Hy. exact (Permutation_in _ (Permutation_sym Hperm) Hy).
  - destruct (resolve_order_raise _ _ E) as [[_ Hm'] | [-> _]];
      [congruence | reflexivity].
Qed.

Lemma fold_left_raise (l : list Pass) (e : exn) :
  fold_left (fun acc p => m' <- acc ;; apply p m') l (Raise e) = Raise e.
Proof. induction l as [| p l IH]; simpl; [reflexivity | exact IH]. Qed.

Lemma apply_in_order_fold (l : list Pass) (m : IRModule) :
  apply_in_order l m = fold_left (fun acc p => m' <- acc ;; apply p m') l (Ok m).
Proof.
  revert m. induction l as [| p l IH]; intros m; simpl; [reflexivity|].
  destruct (apply p m) as [m1 | e]; simpl.
  - apply IH.
  - symmetry. apply fold_left_raise.
Qed.

Lemma missing_required_spec (ps : list Pass) :
  missing_dependency ps = true <-> missing_required ps.
Proof. exact (missing_dependency_spec ps). Qed.

Lemma indexed_nth (ps : list Pass) (i : nat) (p : Pass) :
  In (i, p) (indexed ps) -> nth_error ps i = Some p.
Proof.
  unfold indexed.
  assert (H : forall (l : list Pass) (k : nat),
             In (i, p) (combine (seq k (List.length l)) l) ->
             k <= i /\ nth_error l (i - k) = Some p).
  { intros l. induction l as [| a l IH]; intros k Hin; [contradiction|].
    simpl in Hin. destruct Hin as [Heq | Hin].
    - injection Heq as <- <-. split; [lia|]. now rewrite Nat.sub_diag.
    - destruct (IH (S k) Hin) as [Hle Hn]. split; [lia|].
      replace (i - k) with (S (i - S k)) by lia. exact Hn. }
  intros Hin. destruct (H ps 0 Hin) as [_ Hn]. now rewrite Nat.sub_0_r in Hn.
Qed.

Lemma indexed_snd (ps : list Pass) : map snd (indexed ps) = ps.
Proof.
  unfold indexed.
  assert (H : forall (l : list Pass) (k : nat),
             map snd (combine (seq k (List.length l)) l) = l).
  { intros l. induction l as [| a l IH]; intros k; simpl; [reflexivity|].
    f_equal. apply IH. }
  apply H.
Qed.

(** C1. [run] applies the passes one after the other, each to the module
    the previous one returned, leaving out those above the ceiling, in
    the order resolved by a topological sort of the graph of [required]
    names: the order holds every input pass once, at its input position;
    every pass comes after all the passes it requires; and each pass
    placed is, among the passes whose requirements are already placed,
    the one of least [opt_level] and, at equal level, the earliest in the
    input.  A [required] name that no provided pass bears makes [run]
    fail with [PassDependencyError], a cycle with [PassCycleError], and
    nothing else makes the ordering fail. *)
Theorem run_resolves_order (m : IRModule) (ps : list Pass) (ceiling : Z) :
  (missing_required ps ->
     run m ps ceiling = Raise PassDependencyError)
  /\ (~ missing_required ps -> cyclic ps ->
        run m ps ceiling = Raise PassCycleError)
  /\ (forall e, resolve_order ps = Raise e ->
        (e = PassDependencyError /\ missing_required ps)
        \/ (e = PassCycleError /\ cyclic ps))
  /\ (forall order, resolve_order ps = Ok order ->
        run m ps ceiling
          = fold_left (fun acc p => m' <- acc ;; apply p m')
              (filter (fun p => (opt_level (info p) <=? ceiling)%Z) (map snd order))
              (Ok m)
        /\ Permutation (map snd order) ps
        /\ NoDup (map fst order)
        /\ (forall i p, In (i, p) order -> nth_error ps i = Some p)
        /\ (forall l1 x l2,
              order = (l1 ++ x :: l2)%list ->
              (forall q, In q order ->
                 In (name (info (snd q))) (required (info (snd x))) ->
                 In q l1)
              /\ (forall y, In y l2 ->
                    (forall q, In q (x :: l2) ->
                       ~ In (name (info (snd q))) (required (info (snd y)))) ->
                    (opt_level (info (snd x)) < opt_level (info (snd y)))%Z
                    \/ (opt_level (info (snd x)) = opt_level (info (snd y))
                        /\ fst x < fst y)))).
Proof.
  split; [|split; [|split]].
  - intros Hm. apply missing_required_spec in Hm.
    unfold Pipeline.run, resolve_order. rewrite Hm. reflexivity.
  - intros Hm Hc. unfold Pipeline.run.
    assert (Hb : missing_dependency ps = false).
    { destruct (missing_dependency ps) eqn:E; [|reflexivity].
      exfalso. apply Hm. now apply missing_required_spec. }
    rewrite (resolve_order_cyclic ps Hb Hc). reflexivity.
  - intros e He. destruct (resolve_order_raise _ _ He) as [[H1 H2] | [H1 [_ H2]]].
    + left. split; [exact H1 | now apply missing_required_spec].
    + right. split; assumption.
  - intros order Ho.
    destruct (resolve_order_ok _ _ Ho) as [_ [Hperm Hs]].
    split; [|split; [|split; [|split]]].
    + unfold Pipeline.run. rewrite Ho. cbn [Py.bind].
      rewrite apply_in_order_fold. reflexivity.
    + rewrite <- (indexed_snd ps). now apply Permutation_map.
    + apply (Permutation_NoDup (l := map fst (indexed ps))).
      * apply Permutation_map. now apply Permutation_sym.
      * apply indexed_NoDup.
    + intros i p Hin. apply indexed_nth. exact (Permutation_in _ Hperm Hin).
    + intros l1 x l2 ->. apply scheduled_suffix in Hs.
      inversion Hs as [| ? ? Hready Hmin _]; subst. split.
      * intros q Hq Hd.
        apply in_app_or in Hq. destruct Hq as [Hq | Hq]; [exact Hq|].
        exfalso. exact (proj1 (ready_spec _ _) Hready q Hq Hd).
      * intros y Hy Hry. apply before_spec. apply Hmin; [exact Hy|].
        now apply ready_spec.
Qed.

(** With every requirement provided and no cycle, the order exists. *)
Lemma resolve_order_total (ps : list Pass) :
  missing_dependency ps = false -> ~ cyclic ps ->
  exists order, resolve_order ps = Ok order.
Proof.
  intros Hm Hc. destruct (resolve_order ps) as [order | e] eqn:E.
  - now exists order.
  - exfalso. destruct (resolve_order_raise _ _ E) as [[_ Hm'] | [_ [_ Hc']]];
      [congruence | exact (Hc Hc')].
Qed.

End Runner.

End PipelineSpec.

(* ===================================================================== *)
(** ** The properties at work on the concrete scenarios                   *)
(* ===================================================================== *)

Module Witness.

Import Transform Builder Pipeline Scenario.

Lemma decorating_function_returns_pass_witness :
  well_typed_required (ReqList ["Normalize"]) = true
  /\ (exists p : Pass U M C,
        function_pass (ArgFunction transform) (Some 2%Z) None
                      (ReqList ["Normalize"]) false
          = Ok (Direct (CreatedPass p))
        /\ pass_kind p = FunctionPass)
  /\ (exists p : Pass U M C,
        dataflowblock_pass (ArgFunction transform) (Some 2%Z) None
                           (ReqList ["Normalize"]) false
          = Ok (Direct (CreatedPass p))
        /\ pass_kind p = DataflowBlockPass).
Proof.
  split; [reflexivity|].
  destruct (@TransformSpec.decorating_function_returns_pass U M C c_int_PassInfo
              transform 2%Z None (ReqList ["Normalize"]) false eq_refl
              (fun _ _ _ => eq_refl))
    as [[p [H1 [H2 _]]] [q [H3 [H4 _]]]].
  split; [exists p | exists q]; split; assumption.
Defined.

Lemma recorded_name_defaults_to_dunder_name_witness :
  decorated_name (ArgClass TestReplaceFunc) = Some "TestReplaceFunc"
  /\ well_typed_required ReqNone = true
  /\ exists c : Created U M C,
       function_pass (ArgClass TestReplaceFunc) (Some 1%Z) (Some "") ReqNone false
         = Ok (Direct c)
       /\ name (recorded_info c) = "TestReplaceFunc".
Proof.
  split; [reflexivity | split; [reflexivity|]].
  destruct (@TransformSpec.recorded_name_defaults_to_dunder_name U M C c_int_PassInfo
              (ArgClass TestReplaceFunc) "TestReplaceFunc" 1%Z (Some "") ReqNone false
              eq_refl eq_refl (fun _ _ _ => eq_refl))
    as [H _].
  destruct (H eq_refl) as [c [H1 [c' [H2 H3]]]].
  exists c. split; [exact H1|].
  injection H2 as <-. exact H3.
Defined.

(** C3 as stated fails: decorating a class does not return a pass object
    but a class. *)
Lemma decorating_class_does_not_return_pass :
  ~ (forall a : PassArg U M C,
       (exists f, a = ArgFunction f) \/ (exists c, a = ArgClass c) ->
       exists p : Pass U M C,
         function_pass a (Some 1%Z) None ReqNone false = Ok (Direct (CreatedPass p))).
Proof.
  intros H.
  destruct (H (ArgClass TestReplaceFunc)) as [p Hp].
  - right. now exists TestReplaceFunc.
  - discriminate Hp.
Qed.

Lemma decorating_class_returns_pass_class_witness :
  well_typed_required ReqNone = true
  /\ exists w : PyPassClass U M C,
       function_pass (ArgClass TestReplaceFunc) (Some 1%Z) None ReqNone false
         = Ok (Direct (CreatedClass w))
       /\ wrapper_base w = FunctionPass
       /\ exists p : Pass U M C,
            wrapper_new w [PyInt 7] = Ok p
            /\ pass_kind p = FunctionPass
            /\ pass_func p 0 [] tt = Ok 7.
Proof.
  split; [reflexivity|].
  destruct (@TransformSpec.decorating_class_returns_pass_class U M C c_int_PassInfo
              TestReplaceFunc transform 1%Z None ReqNone false
              eq_refl eq_refl (fun _ _ _ => eq_refl))
    as [[w [H1 [H2 [_ [_ [_ H3]]]]]] _].
  exists w. split; [exact H1 | split; [exact H2|]].
  destruct (H3 [PyInt 7] _ eq_refl) as [p [Hp [Hk [_ [_ [Hcall _]]]]]].
  exists p. split; [exact Hp | split; [exact Hk|]].
  exact (Hcall _ 0 [] tt eq_refl).
Defined.


Lemma matched_enter_exit_restores_depth_witness :
  matched nested_session
  /\ exists s',
       run_ops no_type no_shape any_shape numbered nested_session in_dataflow_block
         = Ok s'
       /\ depth s' = 2.
Proof.
  assert (Hm : matched nested_session).
  { exact (matched_pair (new_frame KModule)
             (matched_pair (new_frame (KBlock false)) (matched_emit add_x_x false))). }
  split; [exact Hm|].
  destruct (run_ops no_type no_shape any_shape numbered nested_session in_dataflow_block)
    as [s'|e] eqn:Hrun; [|discriminate Hrun].
  exists s'. split; [reflexivity|].
  exact (proj1 (BuilderSpec.matched_enter_exit_restores_depth
                  no_type no_shape any_shape numbered)
           nested_session in_dataflow_block s' Hm Hrun).
Defined.

Lemma emit_match_shape_returns_var_iff_emit_var_witness :
  (exists v s',
      emit_match_shape no_type no_shape any_shape numbered
        in_dataflow_block add_x_x [IntImm 2] true true = Ok (Some v, s')
      /\ emit no_type no_shape numbered in_dataflow_block add_x_x true = Ok (v, s')
      /\ var_name v = "lv0")
  /\ emit_match_shape no_type no_shape any_shape numbered
       in_dataflow_block add_x_x [IntImm 2] false true = Ok (None, in_dataflow_block).
Proof.
  pose proof (BuilderSpec.emit_match_shape_returns_var_iff_emit_var
                no_type no_shape any_shape numbered
                in_dataflow_block add_x_x [IntImm 2] true) as [Htrue Hfalse].
  split.
  - destruct (emit_match_shape no_type no_shape any_shape numbered
                in_dataflow_block add_x_x [IntImm 2] true true) as [[r s']|e] eqn:E;
      [|discriminate E].
    destruct (Htrue r s' eq_refl) as [v [top [top' [-> [He _]]]]].
    exists v, s'. split; [reflexivity | split; [exact He|]].
    cbv in E. injection E as <- _. reflexivity.
  - destruct (emit_match_shape no_type no_shape any_shape numbered
                in_dataflow_block add_x_x [IntImm 2] false true) as [[r s']|e] eqn:E;
      [|discriminate E].
    destruct (Hfalse r s' eq_refl) as [-> ->]. reflexivity.
Defined.

Lemma output_returns_its_arguments_witness :
  exists s',
    output in_dataflow_block [x_var] = Ok ([x_var], s').
Proof.
  destruct (output in_dataflow_block [x_var]) as [[r s']|e] eqn:E; [|discriminate E].
  destruct (BuilderSpec.output_returns_its_arguments in_dataflow_block [x_var] E)
    as [-> _].
  exists s'. reflexivity.
Defined.

Lemma arg_with_tensor_type_witness :
  arg in_dataflow_block "x" (IsTensorType float_vector) (Some [IntImm 3])
    = Raise (ValueError "Cannot specify the shape if we use TensorType")
  /\ exists v s',
       arg in_dataflow_block "x" (IsTensorType float_vector) None = Ok (v, s')
       /\ v = mkVar "x" (Some (DynTensorType 1 (Some "float32"))) (Some [IntImm 3]).
Proof.
  pose proof (BuilderSpec.arg_with_tensor_type in_dataflow_block "x" float_vector)
    as [Hshape [_ Hnone]].
  split; [exact (Hshape [IntImm 3])|].
  destruct (arg in_dataflow_block "x" (IsTensorType float_vector) None)
    as [[v s']|e] eqn:E; [|discriminate E].
  exists v, s'. split; [reflexivity|].
  exact (proj1 (Hnone v s' eq_refl)).
Defined.

Lemma two_cycle : cyclic [cycA; cycB].
Proof.
  exists (0, cycA).
  apply t_trans with (y := (1, cycB)); apply t_step; repeat split; simpl; auto.
Defined.

Lemma missing_name : missing_required [passB_missing].
Proof.
  exact (proj1 (PipelineSpec.missing_required_spec U M C [passB_missing]) eq_refl).
Defined.

Lemma no_missing_name : ~ missing_required [cycA; cycB].
Proof.
  intros H.
  apply (proj2 (PipelineSpec.missing_required_spec U M C [cycA; cycB])) in H.
  discriminate H.
Defined.

Lemma run_resolves_order_witness :
  run log_apply [] [passB_missing] 10 = Raise PassDependencyError
  /\ run log_apply [] [cycA; cycB] 10 = Raise PassCycleError
  /\ run log_apply [] [passB; passA] 10 = Ok ["A"; "B"].
Proof.
  split; [|split].
  - exact (proj1 (PipelineSpec.run_resolves_order U M C log_apply [] [passB_missing] 10)
             missing_name).
  - exact (proj1 (proj2 (PipelineSpec.run_resolves_order U M C log_apply [] [cycA; cycB] 10))
             no_missing_name two_cycle).
  - destruct (proj2 (proj2 (proj2
               (PipelineSpec.run_resolves_order U M C log_apply [] [passB; passA] 10)))
               [(1, passA); (0, passB)] eq_refl) as [Hrun _].
    rewrite Hrun. reflexivity.
Defined.

(** Passes with no dependency relation run by ascending [opt_level], then
    in input order; the ceiling leaves the higher levels out. *)
Example ties_by_level_then_input :
  run log_apply [] [named_pass "C" 2 []; named_pass "D" 1 []; named_pass "E" 1 []] 10
    = Ok ["D"; "E"; "C"]
  /\ run log_apply [] [named_pass "C" 2 []; named_pass "D" 1 []; named_pass "E" 1 []] 1
    = Ok ["D"; "E"].
Proof. split; reflexivity. Qed.

End Witness.

(* ===================================================================== *)
(** ** Further properties of the pass registration layer                  *)
(* ===================================================================== *)

Module TransformExtra.

Unset Implicit Arguments.

Import Transform.

Section Registration.

Variables (IRUnit IRModule PassContext : Type).

Variable ffi_PassInfo : Z -> string -> list string -> bool -> result PassInfo.

#[local] Abbreviation PassArg := (Transform.PassArg IRUnit IRModule PassContext).
#[local] Abbreviation Pass := (Transform.Pass IRUnit IRModule PassContext).
#[local] Abbreviation Created := (Transform.Created IRUnit IRModule PassContext).
#[local] Abbreviation Decorated := (Transform.Decorated IRUnit IRModule PassContext).
#[local] Abbreviation function_pass :=
  (@Transform.function_pass IRUnit IRModule PassContext ffi_PassInfo).
#[local] Abbreviation dataflowblock_pass :=
  (@Transform.dataflowblock_pass IRUnit IRModule PassContext ffi_PassInfo).
#[local] Abbreviation create_function_pass :=
  (@Transform.create_function_pass IRUnit IRModule PassContext ffi_PassInfo).
#[local] Abbreviation create_dataflowblock_pass :=
  (@Transform.create_dataflowblock_pass IRUnit IRModule PassContext ffi_PassInfo).

Lemma normalize_required_acceptable (r : Required) :
  acceptable_required r = true ->
  normalize_required r = Ok (required_names r).
Proof.
  unfold acceptable_required, normalize_required.
  destruct r as [| l | l | t]; simpl.
  - reflexivity.
  - destruct l; reflexivity.
  - destruct l; reflexivity.
  - destruct t; simpl; [discriminate | reflexivity].
Qed.

Lemma normalize_required_rejected (r : Required) :
  acceptable_required r = false ->
  normalize_required r
    = Raise (TypeError "Required is expected to be the type of list/tuple.").
Proof.
  unfold acceptable_required, normalize_required.
  destruct r as [| l | l | t]; simpl; try discriminate.
  - destruct l; discriminate.
  - destruct l; discriminate.
  - destruct t; simpl; [reflexivity | discriminate].
Qed.

Lemma normalize_required_falsy (r : Required) :
  req_truthy r = false -> normalize_required r = Ok [].
Proof.
  unfold normalize_required. intros ->. reflexivity.
Qed.

(** X1. A [required] argument that is truthy and neither a list nor a
    tuple makes both entry points raise [TypeError], whatever
    [pass_func], [name] and [traceable] are: the test comes before
    [pass_func] is looked at. *)
Theorem required_of_wrong_type_raises_TypeError
    (pass_func : PassArg) (opt : Z) (name : option string) (required : Required)
    (traceable : bool) :
  acceptable_required required = false ->
  function_pass pass_func (Some opt) name required traceable
    = Raise (TypeError "Required is expected to be the type of list/tuple.")
  /\ dataflowblock_pass pass_func (Some opt) name required traceable
    = Raise (TypeError "Required is expected to be the type of list/tuple.").
Proof.
  intros H. unfold Transform.function_pass, Transform.dataflowblock_pass.
  rewrite (normalize_required_rejected required H). split; reflexivity.
Qed.

(** X2. A falsy [required] of any type (an empty list or tuple, but also
    [0], [""] or any other falsy object) is taken as no requirement at
    all: the call behaves as with [required] omitted. *)
Theorem falsy_required_is_omitted
    (pass_func : PassArg) (opt_level : option Z) (name : option string)
    (required : Required) (traceable : bool) :
  req_truthy required = false ->
  function_pass pass_func opt_level name required traceable
    = function_pass pass_func opt_level name (ReqNone) traceable
  /\ dataflowblock_pass pass_func opt_level name required traceable
    = dataflowblock_pass pass_func opt_level name (ReqNone) traceable.
Proof.
  intros H. unfold Transform.function_pass, Transform.dataflowblock_pass.
  rewrite (normalize_required_falsy required H).
  rewrite (normalize_required_falsy ReqNone eq_refl).
  split; reflexivity.
Qed.

(** X3. Calling an entry point with a (truthy) [pass_func] is the same as
    calling it without one and applying the returned decorator to that
    argument; in particular both fail alike. *)
Theorem direct_call_is_decorator_applied
    (a : PassArg) (opt_level : option Z) (name : option string)
    (required : Required) (traceable : bool) :
  arg_truthy a = true ->
  let through (r : result Decorated) : result Decorated :=
    dec <- r ;;
    match dec with
    | Decorator d => c <- d a ;; Ok (Direct c)
    | Direct c => Ok (Direct c)
    end in
  function_pass a opt_level name required traceable
    = through (function_pass (ArgNone _ _ _) opt_level name required traceable)
  /\ dataflowblock_pass a opt_level name required traceable
    = through (dataflowblock_pass (ArgNone _ _ _) opt_level name required traceable).
Proof.
  intros Ha through. subst through.
  unfold Transform.function_pass, Transform.dataflowblock_pass.
  destruct opt_level as [opt|]; [|split; reflexivity].
  destruct (normalize_required required) as [req|e]; [|split; reflexivity].
  cbn [Py.bind arg_truthy]. rewrite Ha. split; reflexivity.
Qed.

(** X4. A falsy [pass_func] (not only [None]) is taken as omitted: the
    entry points return a decorator instead of rejecting it, and with an
    [opt_level] and an acceptable [required] they do not fail. *)
Theorem falsy_pass_func_returns_decorator
    (a : PassArg) (opt_level : option Z) (name : option string)
    (required : Required) (traceable : bool) :
  arg_truthy a = false ->
  function_pass a opt_level name required traceable
    = function_pass (ArgNone _ _ _) opt_level name required traceable
  /\ dataflowblock_pass a opt_level name required traceable
    = dataflowblock_pass (ArgNone _ _ _) opt_level name required traceable
  /\ (forall opt, opt_level = Some opt -> acceptable_required required = true ->
        (exists d, function_pass a opt_level name required traceable = Ok (Decorator d))
        /\ (exists d, dataflowblock_pass a opt_level name required traceable
                      = Ok (Decorator d))).
Proof.
  intros Ha. unfold Transform.function_pass, Transform.dataflowblock_pass.
  destruct opt_level as [opt|].
  - destruct (normalize_required required) as [req|e] eqn:E.
    + cbn [Py.bind arg_truthy]. rewrite Ha.
      split; [reflexivity | split; [reflexivity|]].
      intros opt' _ _. split; eexists; reflexivity.
    + split; [reflexivity | split; [reflexivity|]].
      intros opt' _ Hacc.
      rewrite (normalize_required_acceptable required Hacc) in E. discriminate.
  - split; [reflexivity | split; [reflexivity|]].
    intros opt' H. discriminate.
Qed.

Lemma pick_name_ok_iff (name : option string) (a : PassArg) :
  is_ok (pick_name name a) = name_truthy name || has_dunder_name a.
Proof.
  unfold pick_name, has_dunder_name.
  destruct name as [s|]; simpl; [|reflexivity].
  destruct (String.eqb s ""); reflexivity.
Qed.

(** X5. What is neither a function nor a class is never registered, and
    the checks fail in the order of the code: first the [__name__]
    lookup ([AttributeError], when no non-empty [name] is given and the
    object has no [__name__]), then the native [PassInfo] constructor
    (whatever it raises), and only then the callable test
    ([TypeError]). *)
Theorem non_callable_is_rejected
    (a : PassArg) (opt : Z) (name : option string) (req : list string)
    (traceable : bool) :
  decoratable a = false ->
  let rejected (create : PassArg -> result Created) (msg : string) : Prop :=
    is_ok (create a) = false
    /\ (name_truthy name || has_dunder_name a = false ->
        create a = Raise (AttributeError "__name__"))
    /\ (forall fname e, pick_name name a = Ok fname ->
          ffi_PassInfo opt fname req traceable = Raise e ->
          create a = Raise e)
    /\ (forall fname i, pick_name name a = Ok fname ->
          ffi_PassInfo opt fname req traceable = Ok i ->
          create a = Raise (TypeError msg)) in
  rejected (create_function_pass opt name req traceable)
           "pass_func must be a callable for Function pass"
  /\ rejected (create_dataflowblock_pass opt name req traceable)
           "pass_func must be a callable for DataflowBlock pass".
Proof.
  intros Ha rejected. subst rejected.
  unfold Transform.create_function_pass, Transform.create_dataflowblock_pass.
  pose proof (pick_name_ok_iff name a) as Hpick.
  assert (Hattr : forall e, pick_name name a = Raise e -> e = AttributeError "__name__").
  { intros e. unfold pick_name.
    assert (Hn : forall e0, arg_name a = Raise e0 -> e0 = AttributeError "__name__").
    { intros e0. destruct a as [| f | c | t [o|]]; simpl; try discriminate;
        intros H; injection H as <-; reflexivity. }
    destruct name as [s|]; simpl; [destruct (String.eqb s ""); simpl|];
      try discriminate; apply Hn. }
  destruct (pick_name name a) as [fname|e0] eqn:Hp; cbn [Py.bind is_ok] in *.
  - destruct (ffi_PassInfo opt fname req traceable) as [i|e] eqn:Hffi; cbn [Py.bind].
    + destruct a as [| f | c | t o]; simpl in Ha; try discriminate.
      all: split; (split; [reflexivity | split; [|split]]).
      all: try (intros H; rewrite <- Hpick in H; discriminate H).
      all: try (intros fname' e' Hf He; injection Hf as <-; congruence).
      all: intros fname' i' Hf Hi; reflexivity.
    + split; (split; [reflexivity | split; [|split]]).
      all: try (intros H; rewrite <- Hpick in H; discriminate H).
      all: try (intros fname' e' Hf He; injection Hf as <-; congruence).
      all: intros fname' i' Hf Hi; injection Hf as <-; congruence.
  - rewrite (Hattr e0 eq_refl).
    split; (split; [reflexivity | split; [|split]]).
    all: try (intros _; reflexivity).
    all: intros fname' x Hf; discriminate Hf.
Qed.

Lemma create_function_pass_ok
    (opt : Z) (name : option string) (req : list string) (tr : bool) (a : PassArg) :
  is_ok (create_function_pass opt name req tr a)
    = match decorated_name a with
      | Some dn => is_ok (ffi_PassInfo opt (expected_name name dn) req tr)
      | None => false
      end
  /\ is_ok (create_dataflowblock_pass opt name req tr a)
     = is_ok (create_function_pass opt name req tr a).
Proof.
  unfold Transform.create_function_pass, Transform.create_dataflowblock_pass.
  destruct a as [| f | c | t o]; cbn [decorated_name].
  - destruct (pick_name name (ArgNone _ _ _)) as [fname|e]; cbn [Py.bind is_ok];
      [|split; reflexivity].
    destruct (ffi_PassInfo opt fname req tr); split; reflexivity.
  - rewrite (TransformSpec.pick_name_decorated name (ArgFunction f) (dn := fn_name f) eq_refl).
    cbn [Py.bind].
    destruct (ffi_PassInfo opt _ req tr); split; reflexivity.
  - rewrite (TransformSpec.pick_name_decorated name (ArgClass c) (dn := cls_name c) eq_refl).
    cbn [Py.bind].
    destruct (ffi_PassInfo opt _ req tr); split; reflexivity.
  - destruct (pick_name name (ArgObject _ _ _ t o)) as [fname|e]; cbn [Py.bind is_ok];
      [|split; reflexivity].
    destruct (ffi_PassInfo opt fname req tr); split; reflexivity.
Qed.

(** X6. The entry points succeed exactly when [opt_level] is given,
    [required] is falsy or a list or tuple, and [pass_func] is either
    falsy, or a function or class for whose name the native [PassInfo]
    constructor takes the arguments; and the two entry points accept the
    same arguments. *)
Theorem registration_succeeds_iff
    (pass_func : PassArg) (opt_level : option Z) (name : option string)
    (required : Required) (traceable : bool) :
  is_ok (function_pass pass_func opt_level name required traceable)
    = match opt_level with
      | None => false
      | Some opt =>
          acceptable_required required
          && (negb (arg_truthy pass_func)
              || match decorated_name pass_func with
                 | Some dn =>
                     is_ok (ffi_PassInfo opt (expected_name name dn)
                                         (required_names required) traceable)
                 | None => false
                 end)
      end
  /\ is_ok (dataflowblock_pass pass_func opt_level name required traceable)
    = is_ok (function_pass pass_func opt_level name required traceable).
Proof.
  unfold Transform.function_pass, Transform.dataflowblock_pass.
  destruct opt_level as [opt|]; [|split; reflexivity].
  destruct (acceptable_required required) eqn:Hacc.
  - rewrite (normalize_required_acceptable required Hacc). cbn [Py.bind andb].
    destruct (create_function_pass_ok opt name (required_names required) traceable pass_func)
      as [Hf Hd].
    destruct (arg_truthy pass_func); cbn [negb orb]; [|split; reflexivity].
    rewrite <- Hf.
    destruct (create_function_pass opt name (required_names required) traceable pass_func)
      as [c1|e1];
      destruct (create_dataflowblock_pass opt name (required_names required) traceable
                  pass_func) as [c2|e2];
      cbn [Py.bind is_ok] in *; split; try reflexivity; congruence.
  - rewrite (normalize_required_rejected required Hacc). split; reflexivity.
Qed.

(** *** BindParams *)

Variable ffi_nd_array : TensorData -> result TensorData.
Variable ffi_BindParams : string -> dict value -> result Pass.

#[local] Abbreviation bind_params_step := (Transform.bind_params_step ffi_nd_array).
#[local] Abbreviation bind_params_loop := (Transform.bind_params_loop ffi_nd_array).
#[local] Abbreviation convertible := (Transform.convertible ffi_nd_array).
#[local] Abbreviation BindParams :=
  (@Transform.BindParams IRUnit IRModule PassContext ffi_nd_array ffi_BindParams).

Lemma bind_params_loop_app (l1 l2 acc : dict value) :
  bind_params_loop acc (l1 ++ l2)
    = (d <- bind_params_loop acc l1 ;; bind_params_loop d l2).
Proof.
  revert acc. induction l1 as [| kv l1 IH]; intros acc;
    cbn [Transform.bind_params_loop app].
  - reflexivity.
  - destruct (bind_params_step acc kv) as [d|e]; cbn [Py.bind]; [apply IH | reflexivity].
Qed.

Lemma bind_params_loop_accepts (l acc : dict value) :
  Forall (fun kv => is_tensor (snd kv) = true) l ->
  Forall (fun kv => convertible (snd kv)) l ->
  exists d, bind_params_loop acc l = Ok d.
Proof.
  revert acc. induction l as [| [k v] l IH]; intros acc Hall Hconv;
    cbn [Transform.bind_params_loop].
  - now exists acc.
  - inversion Hall as [| ? ? Hv Hrest]; subst.
    inversion Hconv as [| ? ? Hc Hcrest]; subst. cbn [snd] in Hv, Hc.
    destruct (@TransformSpec.bind_params_step_stores ffi_nd_array acc k v Hv Hc)
      as [v' [_ [_ Hstep]]].
    rewrite Hstep. cbn [Py.bind]. now apply IH.
Qed.

(** X7. [BindParams] stops at the first value, in the order of the
    mapping, that is neither a numpy array nor an NDArray: when the numpy
    arrays before it are ones [tvm.nd.array] takes, the [AssertionError]
    names the type of that value, and what comes after it does not
    matter. *)
Theorem BindParams_reports_first_offender
    (func_name : string) (good rest : dict value) (k : string) (v : value) :
  Forall (fun kv => is_tensor (snd kv) = true) good ->
  Forall (fun kv => convertible (snd kv)) good ->
  is_tensor v = false ->
  BindParams func_name (good ++ (k, v) :: rest)%list
    = Raise (AssertionError
               ("param values are expected to be TVM.NDArray or numpy.ndarray, but got "
                  ++ type_repr v)).
Proof.
  intros Hgood Hconv Hv. unfold Transform.BindParams.
  rewrite bind_params_loop_app.
  destruct (bind_params_loop_accepts good [] Hgood Hconv) as [d Hd].
  rewrite Hd. cbn [Py.bind Transform.bind_params_loop].
  assert (Hstep : bind_params_step d (k, v)
            = Raise (AssertionError
                       ("param values are expected to be TVM.NDArray or numpy.ndarray, but got "
                          ++ type_repr v))).
  { unfold Transform.bind_params_step. destruct v; simpl in *; try discriminate; reflexivity. }
  rewrite Hstep. reflexivity.
Qed.

Lemma keys_dict_set (d : dict value) (k x : string) (v : value) :
  In x (keys (dict_set d k v)) -> In x (keys d) \/ x = k.
Proof.
  induction d as [| [k' v'] d IH]; simpl.
  - intros [<- | []]. now right.
  - destruct (String.eqb k' k); simpl.
    + intros [<- | H]; [left; now left | left; now right].
    + intros [<- | H]; [left; now left|].
      destruct (IH H) as [H' | ->]; [left; now right | now right].
Qed.

Lemma dict_set_keeps (d : dict value) (k : string) (v : value) :
  NoDup (keys d) ->
  Forall (fun x => isinstance_NDArray x = true) (values d) ->
  isinstance_NDArray v = true ->
  NoDup (keys (dict_set d k v))
  /\ Forall (fun x => isinstance_NDArray x = true) (values (dict_set d k v)).
Proof.
  induction d as [| [k' v'] d IH]; simpl; intros Hnd Hall Hv.
  - split; constructor; try constructor; auto.
  - inversion Hnd as [| ? ? Hk Hnd']; subst. inversion Hall as [| ? ? Hv' Hall']; subst.
    destruct (String.eqb_spec k' k) as [-> | Hne]; simpl.
    + split; constructor; assumption.
    + destruct (IH Hnd' Hall' Hv) as [IH1 IH2].
      split; constructor; try assumption.
      intros Hin. destruct (keys_dict_set d k k' v Hin) as [H | H]; [exact (Hk H)|].
      now apply Hne.
Qed.

Lemma bind_params_step_inv (acc d : dict value) (k : string) (v : value) :
  bind_params_step acc (k, v) = Ok d ->
  exists v', isinstance_NDArray v' = true /\ d = dict_set acc k v'.
Proof.
  unfold Transform.bind_params_step.
  destruct (if isinstance_np_ndarray v then Transform.tvm_nd_array ffi_nd_array v else Ok v)
    as [v'|e]; cbn [Py.bind]; [|discriminate].
  destruct (isinstance_NDArray v') eqn:Hv'; [|discriminate].
  intros H. injection H as <-. now exists v'.
Qed.

Lemma bind_params_loop_keeps (l acc d : dict value) :
  bind_params_loop acc l = Ok d ->
  NoDup (keys acc) ->
  Forall (fun x => isinstance_NDArray x = true) (values acc) ->
  NoDup (keys d) /\ Forall (fun x => isinstance_NDArray x = true) (values d).
Proof.
  revert acc. induction l as [| [k v] l IH]; intros acc Hloop Hnd Hall;
    cbn [Transform.bind_params_loop] in Hloop.
  - injection Hloop as <-. now split.
  - destruct (bind_params_step acc (k, v)) as [d1|e] eqn:Hstep; cbn [Py.bind] in Hloop;
      [|discriminate].
    destruct (bind_params_step_inv acc d1 k v Hstep) as [v' [Hv' ->]].
    destruct (dict_set_keeps acc k v' Hnd Hall Hv') as [H1 H2].
    exact (IH _ Hloop H1 H2).
Qed.

Lemma bind_params_loop_fixed (l acc : dict value) :
  Forall (fun x => isinstance_NDArray x = true) (values l) ->
  NoDup (keys acc ++ keys l) ->
  bind_params_loop acc l = Ok (acc ++ l)%list.
Proof.
  revert acc. induction l as [| [k v] l IH]; intros acc Hall Hnd;
    cbn [Transform.bind_params_loop].
  - now rewrite app_nil_r.
  - unfold values in Hall. simpl in Hall.
    inversion Hall as [| ? ? Hv Hrest]; subst.
    assert (Hk : ~ In k (keys acc)).
    { simpl in Hnd. apply NoDup_remove_2 in Hnd.
      intros Hin. apply Hnd. apply in_or_app. now left. }
    assert (Hstep : bind_params_step acc (k, v) = Ok (acc ++ [(k, v)])%list).
    { unfold Transform.bind_params_step.
      destruct v; simpl in Hv; try discriminate.
      cbn [isinstance_np_ndarray Py.bind isinstance_NDArray].
      now rewrite (@TransformSpec.dict_set_fresh value acc k _ Hk). }
    rewrite Hstep. cbn [Py.bind].
    rewrite IH.
    + now rewrite <- app_assoc.
    + exact Hrest.
    + unfold keys in *. rewrite map_app. simpl. rewrite <- app_assoc. exact Hnd.
Qed.

(** X8. Binding is idempotent on the converted mapping: when the loop of
    [BindParams] turns [params] into [tvm_params], handing [BindParams]
    that converted mapping delegates the very same call (nothing is
    converted again, no key moves). *)
Theorem BindParams_on_converted_params
    (func_name : string) (params tvm_params : dict value) :
  bind_params_loop [] params = Ok tvm_params ->
  bind_params_loop [] tvm_params = Ok tvm_params
  /\ BindParams func_name tvm_params = ffi_BindParams func_name tvm_params
  /\ BindParams func_name tvm_params = BindParams func_name params.
Proof.
  intros Hloop.
  destruct (bind_params_loop_keeps params [] tvm_params Hloop) as [Hnd Hall];
    [constructor | constructor |].
  assert (Hfix : bind_params_loop [] tvm_params = Ok tvm_params)
    by exact (bind_params_loop_fixed tvm_params [] Hall Hnd).
  unfold Transform.BindParams. rewrite Hfix, Hloop. repeat split.
Qed.

End Registration.

End TransformExtra.

(* ===================================================================== *)
(** ** Properties of [tensor] and [call_packed]                           *)
(* ===================================================================== *)

Module IRBuilderExtra.

Unset Implicit Arguments.

Import Builder IRBuilder.

Lemma list_set_middle {A} (pre rest : list A) (x v : A) :
  list_set (pre ++ x :: rest) (List.length pre) v = (pre ++ v :: rest)%list.
Proof.
  induction pre as [| a pre IH]; simpl; [reflexivity|]. now rewrite IH.
Qed.

Lemma snoc_app {A} (pre rest : list A) (x : A) :
  (pre ++ x :: rest = (pre ++ [x]) ++ rest)%list.
Proof. now rewrite <- app_assoc. Qed.

Lemma snoc_length {A} (pre : list A) (x : A) :
  List.length (pre ++ [x]) = S (List.length pre).
Proof. rewrite length_app. simpl. lia. Qed.

(** *** tensor *)

(** The in-place loop, started at any position, rewrites what is left
    entry by entry. *)
Lemma rewrite_shape_from (rest pre : list Dim) :
  rewrite_shape (combine (seq (List.length pre) (List.length rest)) rest) (pre ++ rest)
    = (pre ++ map resolve_dim rest)%list.
Proof.
  revert pre. induction rest as [| x rest IH]; intros pre; [reflexivity|].
  cbn [List.length seq combine rewrite_shape map].
  destruct x as [e | n]; cbn [resolve_dim].
  - rewrite (snoc_app pre rest (DimExpr e)), <- (snoc_length pre (DimExpr e)), IH.
    now rewrite <- app_assoc.
  - rewrite list_set_middle.
    rewrite (snoc_app pre rest (DimExpr (_tir_var "int64" n))),
      <- (snoc_length pre (DimExpr (_tir_var "int64" n))), IH.
    now rewrite <- app_assoc.
Qed.

Lemma rewrite_shape_enumerate (l : list Dim) :
  rewrite_shape (enumerate l) l = map resolve_dim l.
Proof. exact (rewrite_shape_from l []). Qed.

Lemma resolve_dim_idempotent (l : list Dim) :
  map resolve_dim (map resolve_dim l) = map resolve_dim l.
Proof.
  rewrite map_map. apply map_ext. intros [e | n]; reflexivity.
Qed.

Section Tensor.

Variable ffi_Tensor : option (list Dim) -> option string -> Z -> result TensorType.

#[local] Abbreviation tensor := (IRBuilder.tensor ffi_Tensor).

(** X12. The shape [tensor] hands the native constructor has the length
    of the one it was given and holds no string: every [PrimExpr] is in
    its place and every string [s] has become the int64 variable named
    [s].  A list and a tuple are treated alike, and [None] stays
    [None]. *)
Theorem tensor_resolves_symbolic_dims
    (l : list Dim) (dtype : option string) (ndim : Z) :
  exists l',
    snd (tensor (ShapeList l) dtype ndim) = ffi_Tensor (Some l') dtype ndim
    /\ snd (tensor (ShapeTuple l) dtype ndim) = ffi_Tensor (Some l') dtype ndim
    /\ snd (tensor ShapeNone dtype ndim) = ffi_Tensor None dtype ndim
    /\ List.length l' = List.length l
    /\ Forall (fun d => is_expr d = true) l'
    /\ (forall i e, nth_error l i = Some (DimExpr e) ->
                    nth_error l' i = Some (DimExpr e))
    /\ (forall i s, nth_error l i = Some (DimStr s) ->
                    nth_error l' i = Some (DimExpr (TirVar "int64" s))).
Proof.
  exists (map resolve_dim l).
  unfold IRBuilder.tensor. cbn [snd]. rewrite rewrite_shape_enumerate.
  repeat split.
  - apply length_map.
  - apply Forall_map. apply Forall_forall. intros [e | n] _; reflexivity.
  - intros i e H. rewrite nth_error_map, H. reflexivity.
  - intros i s H. rewrite nth_error_map, H. reflexivity.
Qed.

Lemma resolve_dim_exprs (l : list Dim) :
  Forall (fun d => is_expr d = true) l -> map resolve_dim l = l.
Proof.
  induction 1 as [| d l Hd _ IH]; simpl; [reflexivity|].
  rewrite IH. destruct d; [reflexivity | discriminate].
Qed.

(** X13. [tensor] rewrites a list it is given in place (the caller's
    list holds the variables afterwards) and leaves a tuple alone.  A
    list that holds no string is left as it is and handed to the native
    constructor unchanged; so a second call with the list as the first
    call left it makes no new variable and changes nothing. *)
Theorem tensor_rewrites_list_in_place (dtype : option string) (ndim : Z) :
  (forall l, fst (tensor (ShapeList l) dtype ndim) = ShapeList (map resolve_dim l))
  /\ (forall l, fst (tensor (ShapeTuple l) dtype ndim) = ShapeTuple l)
  /\ (forall l, Forall (fun d => is_expr d = true) l ->
        tensor (ShapeList l) dtype ndim
          = (ShapeList l, ffi_Tensor (Some l) dtype ndim))
  /\ (forall l after,
        fst (tensor (ShapeList l) dtype ndim) = ShapeList after ->
        tensor (ShapeList after) dtype ndim
          = (ShapeList after, ffi_Tensor (Some after) dtype ndim)).
Proof.
  assert (Hexpr : forall l, Forall (fun d => is_expr d = true) l ->
            tensor (ShapeList l) dtype ndim
              = (ShapeList l, ffi_Tensor (Some l) dtype ndim)).
  { intros l Hl. unfold IRBuilder.tensor.
    rewrite rewrite_shape_enumerate, (resolve_dim_exprs l Hl). reflexivity. }
  unfold IRBuilder.tensor. split; [|split; [|split]].
  - intros l. cbn [fst]. now rewrite rewrite_shape_enumerate.
  - intros l. reflexivity.
  - exact Hexpr.
  - intros l after. cbn [fst]. rewrite rewrite_shape_enumerate.
    intros H. injection H as <-.
    apply Hexpr. apply Forall_map. apply Forall_forall. intros [e | n] _; reflexivity.
Qed.

End Tensor.

(** *** call_packed *)

Lemma rewrite_type_args_accepts (rest pre : list TypeElem) :
  Forall (fun e => accepted e = true) rest ->
  rewrite_type_args (combine (seq (List.length pre) (List.length rest)) rest)
                    (pre ++ rest)
    = ((pre ++ map plain_type rest)%list, Ok tt).
Proof.
  revert pre. induction rest as [| x rest IH]; intros pre Hall.
  - reflexivity.
  - inversion Hall as [| ? ? Hx Hrest]; subst.
    cbn [List.length seq combine rewrite_type_args map].
    destruct x as [t | t | v]; simpl in Hx; try discriminate; cbn [plain_type];
      rewrite list_set_middle.
    + rewrite (snoc_app pre rest (ElemType (tt_type t))),
        <- (snoc_length pre (ElemType (tt_type t))), (IH _ Hrest).
      now rewrite <- app_assoc.
    + rewrite (snoc_app pre rest (ElemType t)),
        <- (snoc_length pre (ElemType t)), (IH _ Hrest).
      now rewrite <- app_assoc.
Qed.

Lemma rewrite_type_args_rejects (good pre tail : list TypeElem) (bad : TypeElem) :
  Forall (fun e => accepted e = true) good ->
  accepted bad = false ->
  rewrite_type_args
    (combine (seq (List.length pre) (List.length (good ++ bad :: tail)))
             (good ++ bad :: tail))
    (pre ++ good ++ bad :: tail)
    = ((pre ++ map plain_type good ++ bad :: tail)%list, Raise type_args_error).
Proof.
  revert pre. induction good as [| x good IH]; intros pre Hall Hbad.
  - cbn [app List.length seq combine rewrite_type_args map].
    destruct bad; simpl in Hbad; try discriminate. reflexivity.
  - inversion Hall as [| ? ? Hx Hrest]; subst.
    cbn [app List.length seq combine rewrite_type_args map].
    destruct x as [t | t | v]; simpl in Hx; try discriminate; cbn [plain_type];
      rewrite list_set_middle.
    + rewrite (snoc_app pre (good ++ bad :: tail) (ElemType (tt_type t))),
        <- (snoc_length pre (ElemType (tt_type t))), (IH _ Hrest Hbad).
      now rewrite <- app_assoc.
    + rewrite (snoc_app pre (good ++ bad :: tail) (ElemType t)),
        <- (snoc_length pre (ElemType t)), (IH _ Hrest Hbad).
      now rewrite <- app_assoc.
Qed.

(** The first rejected entry of a list that is not accepted throughout. *)
Lemma first_rejected (l : list TypeElem) :
  forallb accepted l = false ->
  exists good bad tail,
    l = (good ++ bad :: tail)%list
    /\ Forall (fun e => accepted e = true) good
    /\ accepted bad = false.
Proof.
  induction l as [| x l IH]; simpl; [discriminate|].
  destruct (accepted x) eqn:Hx; simpl.
  - intros H. destruct (IH H) as [good [bad [tail [-> [Hg Hb]]]]].
    exists (x :: good), bad, tail. repeat split; [now constructor | exact Hb].
  - intros _. exists [], x, l. repeat split; [constructor | exact Hx].
Qed.

Lemma call_packed_ok_aux
    (func : string) (args : list Expr) (attrs : option Attrs) (type_args : TypeArgs) :
  type_args <> TypeArgsNone ->
  Forall (fun e => accepted e = true) (as_list type_args) ->
  exists c, snd (call_packed func args attrs type_args) = Ok c.
Proof.
  intros Hnone Hall.
  pose proof (rewrite_type_args_accepts (as_list type_args) [] Hall) as Hloop.
  cbn [List.length app] in Hloop.
  unfold call_packed.
  destruct type_args as [| t | t | l | l]; [contradiction | | | |];
    unfold enumerate; rewrite Hloop; eexists; reflexivity.
Qed.

(** X9. When every entry of [type_args] is a [TensorType] or a [Type],
    [call_packed] returns the call of the extern function [func] on the
    given arguments and attributes, with as many type arguments as
    entries, in the same order: a [Type] as it is, a [TensorType]
    replaced by its [type] field.  A single [TensorType] or [Type]
    counts as a list of one, a tuple as a list. *)
Theorem call_packed_builds_call
    (func : string) (args : list Expr) (attrs : option Attrs) (type_args : TypeArgs) :
  type_args <> TypeArgsNone ->
  Forall (fun e => accepted e = true) (as_list type_args) ->
  snd (call_packed func args attrs type_args)
    = Ok (mkCall (mkExternFunc func) args attrs (map plain_type (as_list type_args)))
  /\ Forall (fun e => is_type e = true) (map plain_type (as_list type_args))
  /\ List.length (map plain_type (as_list type_args)) = List.length (as_list type_args).
Proof.
  intros Hnone Hall.
  pose proof (rewrite_type_args_accepts (as_list type_args) [] Hall) as Hloop.
  cbn [List.length app] in Hloop.
  split; [|split].
  - unfold call_packed.
    destruct type_args as [| t | t | l | l]; [contradiction | | | |];
      unfold enumerate; rewrite Hloop; reflexivity.
  - apply Forall_map. eapply Forall_impl; [|exact Hall].
    intros [t | t | v] H; simpl in *; try discriminate; reflexivity.
  - apply length_map.
Qed.

(** X10. [call_packed] fails in two ways only: with [ValueError] when
    [type_args] is omitted, and with [TypeError] when some entry is
    neither a [TensorType] nor a [Type]; the message of the latter is
    the same whatever the offending entry is. *)
Theorem call_packed_failures
    (func : string) (args : list Expr) (attrs : option Attrs) (type_args : TypeArgs) :
  snd (call_packed func args attrs TypeArgsNone)
    = Raise (ValueError "R.call_packed is required to have type_args")
  /\ (type_args <> TypeArgsNone ->
      forallb accepted (as_list type_args) = false ->
      snd (call_packed func args attrs type_args) = Raise type_args_error)
  /\ is_ok (snd (call_packed func args attrs type_args))
     = match type_args with
       | TypeArgsNone => false
       | _ => forallb accepted (as_list type_args)
       end.
Proof.
  assert (Hbad : type_args <> TypeArgsNone ->
                 forallb accepted (as_list type_args) = false ->
                 snd (call_packed func args attrs type_args) = Raise type_args_error).
  { intros Hnone Hall.
    destruct (first_rejected _ Hall) as [good [bad [tail [Hl [Hg Hb]]]]].
    pose proof (rewrite_type_args_rejects good [] tail bad Hg Hb) as Hloop.
    cbn [List.length app] in Hloop. rewrite <- Hl in Hloop.
    unfold call_packed.
    destruct type_args as [| t | t | l | l]; [contradiction | | | |];
      unfold enumerate; rewrite Hloop; reflexivity. }
  split; [reflexivity | split; [exact Hbad|]].
  destruct (forallb accepted (as_list type_args)) eqn:Hall.
  - destruct type_args as [| t | t | l | l]; [reflexivity | | | |].
    all: match goal with
         | |- is_ok (snd (call_packed _ _ _ ?ta)) = true =>
             assert (Hn : ta <> TypeArgsNone) by discriminate;
             assert (HF : Forall (fun e => accepted e = true) (as_list ta))
               by (apply Forall_forall; apply (proj1 (forallb_forall _ _)); exact Hall);
             destruct (call_packed_ok_aux func args attrs ta Hn HF) as [c Hc];
             rewrite Hc; reflexivity
         end.
  - destruct type_args as [| t | t | l | l]; [reflexivity | | | |].
    all: rewrite Hbad; [reflexivity | discriminate | reflexivity].
Qed.

(** X11. A list given as [type_args] is rewritten in place: after a
    successful call it holds the plain types, and after a failed one the
    entries before the offending one have been rewritten while the rest
    is as it was.  An argument of any other form is left alone. *)
Theorem call_packed_rewrites_list_in_place
    (func : string) (args : list Expr) (attrs : option Attrs) :
  (forall l,
      Forall (fun e => accepted e = true) l ->
      fst (call_packed func args attrs (TypeArgsList l))
        = TypeArgsList (map plain_type l))
  /\ (forall good bad tail,
      Forall (fun e => accepted e = true) good ->
      accepted bad = false ->
      fst (call_packed func args attrs (TypeArgsList (good ++ bad :: tail)))
        = TypeArgsList (map plain_type good ++ bad :: tail))
  /\ (forall type_args,
      (forall l, type_args <> TypeArgsList l) ->
      fst (call_packed func args attrs type_args) = type_args).
Proof.
  split; [|split].
  - intros l Hall.
    pose proof (rewrite_type_args_accepts l [] Hall) as Hloop.
    cbn [List.length app] in Hloop.
    unfold call_packed, enumerate. cbn [as_list]. rewrite Hloop. reflexivity.
  - intros good bad tail Hg Hb.
    pose proof (rewrite_type_args_rejects good [] tail bad Hg Hb) as Hloop.
    cbn [List.length app] in Hloop.
    unfold call_packed, enumerate. cbn [as_list]. rewrite Hloop. reflexivity.
  - intros type_args Hnl. unfold call_packed.
    destruct type_args as [| t | t | l | l]; try reflexivity.
    + destruct (rewrite_type_args _ _). reflexivity.
    + exfalso. exact (Hnl l eq_refl).
Qed.

End IRBuilderExtra.

(* ===================================================================== *)
(** ** The further properties on concrete inputs                          *)
(* ===================================================================== *)

Module ExtraWitness.

Import Transform Builder IRBuilder Scenario ScenarioMore.

Lemma required_of_wrong_type_raises_TypeError_witness :
  acceptable_required (ReqOther true) = false
  /\ function_pass (ArgFunction transform) (Some 1%Z) None (ReqOther true) false
     = Raise (TypeError "Required is expected to be the type of list/tuple.").
Proof.
  split; [reflexivity|].
  exact (proj1 (TransformExtra.required_of_wrong_type_raises_TypeError U M C
                  c_int_PassInfo
                  (ArgFunction transform) 1%Z None (ReqOther true) false eq_refl)).
Defined.

Lemma falsy_required_is_omitted_witness :
  req_truthy (ReqOther false) = false
  /\ function_pass (ArgFunction transform) (Some 1%Z) None (ReqOther false) false
     = function_pass (ArgFunction transform) (Some 1%Z) None ReqNone false.
Proof.
  split; [reflexivity|].
  exact (proj1 (TransformExtra.falsy_required_is_omitted U M C c_int_PassInfo
                  (ArgFunction transform) (Some 1%Z) None (ReqOther false) false eq_refl)).
Defined.

Lemma direct_call_is_decorator_applied_witness :
  arg_truthy (ArgClass TestReplaceFunc) = true
  /\ function_pass (ArgClass TestReplaceFunc) (Some 1%Z) None ReqNone false
     = (dec <- function_pass (ArgNone U M C) (Some 1%Z) None ReqNone false ;;
        match dec with
        | Decorator d => c <- d (ArgClass TestReplaceFunc) ;; Ok (Direct c)
        | Direct c => Ok (Direct c)
        end).
Proof.
  split; [reflexivity|].
  exact (proj1 (TransformExtra.direct_call_is_decorator_applied U M C c_int_PassInfo
                  (ArgClass TestReplaceFunc) (Some 1%Z) None ReqNone false eq_refl)).
Defined.

Lemma falsy_pass_func_returns_decorator_witness :
  arg_truthy (zero U M C) = false
  /\ (exists d, function_pass (zero U M C) (Some 1%Z) None ReqNone false
                = Ok (Decorator d))
  /\ arg_truthy (ArgClass FalsyPass) = false
  /\ (exists d, function_pass (ArgClass FalsyPass) (Some 1%Z) None ReqNone false
                = Ok (Decorator d)).
Proof.
  split; [reflexivity|]. split; [|split; [reflexivity|]].
  - destruct (TransformExtra.falsy_pass_func_returns_decorator U M C c_int_PassInfo
                (zero U M C) (Some 1%Z) None ReqNone false eq_refl) as [_ [_ H]].
    exact (proj1 (H 1%Z eq_refl eq_refl)).
  - destruct (TransformExtra.falsy_pass_func_returns_decorator U M C c_int_PassInfo
                (ArgClass FalsyPass) (Some 1%Z) None ReqNone false eq_refl) as [_ [_ H]].
    exact (proj1 (H 1%Z eq_refl eq_refl)).
Defined.

Lemma non_callable_is_rejected_witness :
  decoratable (anonymous_object U M C) = false
  /\ create_function_pass 1%Z None [] false (anonymous_object U M C)
     = Raise (AttributeError "__name__")
  /\ create_function_pass 1%Z (Some "MyPass") [] false (anonymous_object U M C)
     = Raise (TypeError "pass_func must be a callable for Function pass")
  /\ create_function_pass (2 ^ 70)%Z (Some "MyPass") [] false (anonymous_object U M C)
     = Raise (ValueError "opt_level does not fit a C int").
Proof.
  split; [reflexivity|]. split; [|split].
  - destruct (TransformExtra.non_callable_is_rejected U M C c_int_PassInfo
                (anonymous_object U M C) 1%Z None [] false eq_refl)
      as [[_ [H _]] _].
    exact (H eq_refl).
  - destruct (TransformExtra.non_callable_is_rejected U M C c_int_PassInfo
                (anonymous_object U M C) 1%Z (Some "MyPass") [] false eq_refl)
      as [[_ [_ [_ H]]] _].
    exact (H "MyPass" _ eq_refl eq_refl).
  - destruct (TransformExtra.non_callable_is_rejected U M C c_int_PassInfo
                (anonymous_object U M C) (2 ^ 70)%Z (Some "MyPass") [] false eq_refl)
      as [[_ [_ [H _]]] _].
    exact (H "MyPass" _ eq_refl eq_refl).
Defined.

Lemma BindParams_reports_first_offender_witness :
  BindParams "main" [("w", NumpyArray w_data); ("b", PyInt 3); ("c", PyStr "x")]
  = Raise (AssertionError
             ("param values are expected to be TVM.NDArray or numpy.ndarray, but got "
                ++ "<class 'int'>")).
Proof.
  assert (Hgood : Forall (fun kv : string * value => is_tensor (snd kv) = true)
                         [("w", NumpyArray w_data)])
    by (constructor; [reflexivity | constructor]).
  assert (Hconv : Forall (fun kv : string * value =>
                            convertible known_dtype_nd_array (snd kv))
                         [("w", NumpyArray w_data)])
    by (constructor; [exists w_data; reflexivity | constructor]).
  exact (TransformExtra.BindParams_reports_first_offender U M C
           known_dtype_nd_array recording_BindParams
           "main" [("w", NumpyArray w_data)] [("c", PyStr "x")] "b" (PyInt 3)
           Hgood Hconv eq_refl).
Defined.

Lemma BindParams_on_converted_params_witness :
  BindParams "main" [("w", NDArray w_data); ("b", NDArray w_data)]
  = BindParams "main" [("w", NumpyArray w_data); ("b", NDArray w_data)]
  /\ BindParams "main" [("w", NDArray w_data); ("b", NDArray w_data)]
     = recording_BindParams "main" [("w", NDArray w_data); ("b", NDArray w_data)].
Proof.
  destruct (TransformExtra.BindParams_on_converted_params U M C
              known_dtype_nd_array recording_BindParams "main"
              [("w", NumpyArray w_data); ("b", NDArray w_data)]
              [("w", NDArray w_data); ("b", NDArray w_data)] eq_refl)
    as [_ [H1 H2]].
  split; [exact H2 | exact H1].
Defined.

Lemma tensor_resolves_symbolic_dims_witness :
  exists l',
    snd (tensor accept_Tensor (ShapeList m_by_3) (Some "float32") 2)
      = accept_Tensor (Some l') (Some "float32") 2
    /\ nth_error l' 0 = Some (DimExpr (TirVar "int64" "m"))
    /\ nth_error l' 1 = Some (DimExpr (IntImm 3)).
Proof.
  destruct (IRBuilderExtra.tensor_resolves_symbolic_dims accept_Tensor m_by_3
              (Some "float32") 2%Z) as [l' [H1 [_ [_ [_ [_ [He Hs]]]]]]].
  exists l'. split; [exact H1 | split].
  - exact (Hs 0 "m" eq_refl).
  - exact (He 1 (IntImm 3) eq_refl).
Defined.

Lemma tensor_rewrites_list_in_place_witness :
  fst (tensor accept_Tensor (ShapeList m_by_3) (Some "float32") 2)
    = ShapeList [DimExpr (TirVar "int64" "m"); DimExpr (IntImm 3)]
  /\ fst (tensor accept_Tensor (ShapeTuple m_by_3) (Some "float32") 2)
    = ShapeTuple m_by_3
  /\ tensor accept_Tensor
       (ShapeList [DimExpr (TirVar "int64" "m"); DimExpr (IntImm 3)]) (Some "float32") 2
     = (ShapeList [DimExpr (TirVar "int64" "m"); DimExpr (IntImm 3)],
        accept_Tensor (Some [DimExpr (TirVar "int64" "m"); DimExpr (IntImm 3)])
                      (Some "float32") 2).
Proof.
  destruct (IRBuilderExtra.tensor_rewrites_list_in_place accept_Tensor
              (Some "float32") 2%Z) as [H1 [H2 [_ H4]]].
  split; [exact (H1 m_by_3) | split; [exact (H2 m_by_3)|]].
  exact (H4 m_by_3 _ (H1 m_by_3)).
Defined.

Lemma call_packed_builds_call_witness :
  snd (call_packed "my_func" [add_x_x] None
         (TypeArgsTuple [ElemTensorType float_vector; ElemType ShapeType]))
  = Ok (mkCall (mkExternFunc "my_func") [add_x_x] None
          [ElemType (DynTensorType 1 (Some "float32")); ElemType ShapeType]).
Proof.
  assert (Hn : TypeArgsTuple [ElemTensorType float_vector; ElemType ShapeType]
               <> TypeArgsNone) by discriminate.
  assert (Hall : Forall (fun e => accepted e = true)
                   (as_list (TypeArgsTuple [ElemTensorType float_vector;
                                            ElemType ShapeType])))
    by (repeat constructor).
  exact (proj1 (IRBuilderExtra.call_packed_builds_call "my_func" [add_x_x] None
                  (TypeArgsTuple [ElemTensorType float_vector; ElemType ShapeType])
                  Hn Hall)).
Defined.

Lemma call_packed_failures_witness :
  snd (call_packed "my_func" [add_x_x] None mixed_type_args) = Raise type_args_error.
Proof.
  assert (Hn : mixed_type_args <> TypeArgsNone) by discriminate.
  exact (proj1 (proj2 (IRBuilderExtra.call_packed_failures "my_func" [add_x_x] None
                         mixed_type_args)) Hn eq_refl).
Defined.

Lemma call_packed_rewrites_list_in_place_witness :
  fst (call_packed "my_func" [add_x_x] None mixed_type_args)
  = TypeArgsList [ElemType (DynTensorType 1 (Some "float32"));
                  ElemOther (PyInt 1);
                  ElemTensorType float_vector].
Proof.
  assert (Hg : Forall (fun e => accepted e = true) [ElemTensorType float_vector])
    by (repeat constructor).
  exact (proj1 (proj2 (IRBuilderExtra.call_packed_rewrites_list_in_place
                         "my_func" [add_x_x] None))
           [ElemTensorType float_vector] (ElemOther (PyInt 1))
           [ElemTensorType float_vector] Hg eq_refl).
Defined.

End ExtraWitness.
